(** * Support chat page ([src/pages/Home.tsx]): controller and renderer

    A shallow embedding of the [Home] component and of [ChatMessage]:
    - JavaScript values the code relies on (truthiness, [||], [trim],
      [Math.round], [Number] to text);
    - the React state of [Home] and the state setters as effects;
    - [handleSend] as an asynchronous function split at its single
      [await], with [try]/[catch]/[finally] in a small exception monad;
    - the event loop of one page session;
    - [ChatMessage] as a function from a message to a view;
    - [Home] as a function from the state to a view, [handleKeyPress], and
      the events the rendered page accepts. *)

From Stdlib Require Import ZArith String Ascii List Bool Lia.
From Stdlib Require Import PrimFloat FloatOps SpecFloat DecimalString DecimalZ.
From Stdlib Require Import Sorted FinFun.
Import ListNotations.

Local Open Scope string_scope.
Local Open Scope list_scope.
Local Open Scope Z_scope.

(** Decimal literals such as [0.92] denote the nearest binary64 number, as
    they do in JavaScript. *)
Set Warnings "-inexact-float".

(** ** JavaScript primitives *)

Module JS.

(** A string is truthy when it is not empty. *)
Definition truthy (s : string) : bool :=
  negb (String.eqb s "").

(** Code units treated as white space by [String.prototype.trim]. A string
    is a sequence of code units below U+0100 here, so the list is the white
    space and line terminators of that range: TAB, LF, VT, FF, CR, SP, NBSP. *)
Definition isWhiteSpace (c : ascii) : bool :=
  let n := nat_of_ascii c in
  ((9 <=? n) && (n <=? 13) || (n =? 32) || (n =? 160))%nat.

Fixpoint trimStart (s : string) : string :=
  match s with
  | EmptyString => EmptyString
  | String c rest => if isWhiteSpace c then trimStart rest else s
  end.

Fixpoint trimEnd (s : string) : string :=
  match s with
  | EmptyString => EmptyString
  | String c rest =>
      match trimEnd rest with
      | EmptyString => if isWhiteSpace c then EmptyString else String c EmptyString
      | kept => String c kept
      end
  end.

Definition trim (s : string) : string := trimEnd (trimStart s).

(** [s] is empty or made of white space only. *)
Fixpoint blank (s : string) : bool :=
  match s with
  | EmptyString => true
  | String c rest => isWhiteSpace c && blank rest
  end.

(** [a || b] where [a] may be [undefined]: [undefined] and [""] are falsy. *)
Definition or_ (a b : option string) : option string :=
  match a with
  | Some s => if truthy s then a else b
  | None => b
  end.

(** [a || 'literal']. *)
Definition or_default (a : option string) (d : string) : string :=
  match a with
  | Some s => if truthy s then s else d
  | None => d
  end.

(** [n.toString()] for an integer [n] in the safe range. *)
Definition toString (n : Z) : string :=
  NilZero.string_of_int (Z.to_int n).

(** The value of [Math.round]: NaN, an infinity, or an integer. The sign of
    a zero result is dropped; it does not show in the text of a number. *)
Inductive rounded : Type :=
| RNaN
| RInfinity (negative : bool)
| RInteger (n : Z).

(** [Math.round x]: the integer nearest to [x], ties towards +Infinity,
    computed exactly from the binary64 value [±m * 2^e]. *)
Definition Math_round (x : float) : rounded :=
  match Prim2SF x with
  | S754_nan => RNaN
  | S754_infinity s => RInfinity s
  | S754_zero _ => RInteger 0
  | S754_finite s m e =>
      let n := if s then Z.neg m else Z.pos m in
      if 0 <=? e then RInteger (n * 2 ^ e)
      else RInteger ((2 * n + 2 ^ (- e)) / 2 ^ (1 - e))
  end.

(** The text of a rounded number as React prints it. Integers beyond
    [2^53] print as shortest round-trip digits, which is not modelled:
    the text is [None] there. *)
Definition Number_toString (r : rounded) : option string :=
  match r with
  | RNaN => Some "NaN"
  | RInfinity false => Some "Infinity"
  | RInfinity true => Some "-Infinity"
  | RInteger n =>
      if Z.abs n <=? 2 ^ 53 then Some (toString n) else None
  end.

End JS.

(** ** Data model *)

(** The page's agent. *)
Definition AGENT_ID : string := "69819b9412326156554941e1".

(** [any]: a JSON value the page passes through without looking at it. *)
#[warnings="-register-all"] Inductive any : Type :=
| JNull
| JBool (b : bool)
| JNumber (x : float)
| JString (s : string)
| JArray (items : list any)
| JObject (fields : list (string * any)).

Record AgentResult : Type := mkAgentResult {
  answer : string;
  res_sources : list any;
  res_confidence : float;
  follow_up_questions : list string;
  requires_escalation : bool
}.

Inductive Role : Type := user | agent.

Record Message : Type := mkMessage {
  id : string;
  role : Role;
  content : string;
  timestamp : Z;
  confidence : option float;
  sources : option (list any);
  followUpQuestions : option (list string);
  requiresEscalation : option bool
}.

Definition STARTER_QUESTIONS : list string :=
  [ "How can I track my order?";
    "What are your business hours?";
    "Tell me about your services";
    "How do I reset my password?" ].

(** What [callAIAgent] resolves to. The declaration lives in
    [@/utils/aiAgent]; the fields are those [handleSend] reads, each one
    possibly [undefined] where the page does not check it. *)
Module Agent.

Record Metadata : Type := mkMetadata {
  agent_name : string;
  meta_timestamp : string
}.

Record NormalizedAgentResponse : Type := mkResponse {
  status : string;
  result : option AgentResult;
  message : option string;
  metadata : option Metadata
}.

Record AIAgentResponse : Type := mkEnvelope {
  success : bool;
  response : option NormalizedAgentResponse;
  error : option string
}.

End Agent.

(** How the promise of [callAIAgent] settles. *)
Inductive Settled : Type :=
| Fulfilled (result : Agent.AIAgentResponse)
| Rejected (reason : string).

(** ** The state of [Home] and its setters *)

(** The four [useState] cells of [Home]. *)
Record HomeState : Type := mkState {
  messages : list Message;
  input : string;
  loading : bool;
  error : option string
}.

(** The first render: [useState([])], [useState('')], [useState(false)],
    [useState(null)]. *)
Definition initial_state : HomeState :=
  {| messages := []; input := ""; loading := false; error := None |}.

(** A call of a state setter. [setMessages_append m] is
    [setMessages(prev => [...prev, m])]. *)
Inductive Effect : Type :=
| setMessages (value : list Message)
| setMessages_append (m : Message)
| setInput (value : string)
| setLoading (value : bool)
| setError (value : option string).

Definition apply_effect (s : HomeState) (e : Effect) : HomeState :=
  match e with
  | setMessages value =>
      {| messages := value; input := input s; loading := loading s; error := error s |}
  | setMessages_append m =>
      {| messages := messages s ++ [m]; input := input s; loading := loading s; error := error s |}
  | setInput value =>
      {| messages := messages s; input := value; loading := loading s; error := error s |}
  | setLoading value =>
      {| messages := messages s; input := input s; loading := value; error := error s |}
  | setError value =>
      {| messages := messages s; input := input s; loading := loading s; error := value |}
  end.

(** React applies the queued updates in the order of the calls. *)
Definition apply_effects (effs : list Effect) (s : HomeState) : HomeState :=
  fold_left apply_effect effs s.

(** ** Exceptions: [try] / [catch] / [finally] *)

Inductive Exn : Type :=
| TypeError
| Rejection (reason : string).

(** A block of code: the setter calls it made, then an exception or a value. *)
Definition Eff (A : Type) : Type := (list Effect * (Exn + A))%type.

Definition ret {A : Type} (a : A) : Eff A := ([], inr a).

Definition throw {A : Type} (e : Exn) : Eff A := ([], inl e).

Definition bind {A B : Type} (m : Eff A) (f : A -> Eff B) : Eff B :=
  match m with
  | (done, inl e) => (done, inl e)
  | (done, inr a) => let '(more, r) := f a in (done ++ more, r)
  end.

Notation "x <- m ;; k" := (bind m (fun x => k))
  (at level 61, m at next level, right associativity).
Notation "m ;;; k" := (bind m (fun _ => k))
  (at level 61, right associativity).

Definition call (e : Effect) : Eff unit := ([e], inr tt).

(** Reading a property of a value that may be [undefined]. *)
Definition property_of {A : Type} (o : option A) : Eff A :=
  match o with
  | Some a => ret a
  | None => throw TypeError
  end.

(** [await p]. *)
Definition await (p : Settled) : Eff Agent.AIAgentResponse :=
  match p with
  | Fulfilled result => ret result
  | Rejected reason => throw (Rejection reason)
  end.

Definition try_catch_finally
    (body : Eff unit) (handler : Exn -> Eff unit) (finalizer : Eff unit) : Eff unit :=
  let caught :=
    match body with
    | (done, inl e) => let '(more, r) := handler e in (done ++ more, r)
    | (done, inr v) => (done, inr v)
    end in
  let '(done, r) := caught in
  let '(more, r') := finalizer in
  (done ++ more, match r' with inl e => inl e | inr _ => r end).

(** ** [handleSend] *)

(** An asynchronous function up to its first [await]: either it returned,
    or it made some setter calls, issued [callAIAgent(message, agent_id)] and
    is suspended with the rest of its body. The two integers given on
    resumption are the readings of [Date.now()] and of [new Date()] there. *)
Inductive Async : Type :=
| Return (effs : list Effect)
| Await (effs : list Effect) (message agent_id : string)
        (resume : Settled -> Z -> Z -> list Effect).

Definition apology : string :=
  "I'm sorry, I encountered an error. Please try again or contact support if the issue persists.".

Definition trouble_connecting : string :=
  "I'm having trouble connecting right now. Please check your internet connection and try again.".

(** The body of [handleSend] from the [await] on. *)
Definition handleSend_settled (settled : Settled) (now date : Z) : Eff unit :=
  try_catch_finally
    (result <- await settled ;;
     is_success <-
       (if Agent.success result
        then response <- property_of (Agent.response result) ;;
             ret (String.eqb (Agent.status response) "success")
        else ret false) ;;
     if (is_success : bool) then
       response <- property_of (Agent.response result) ;;
       payload <- property_of (Agent.result response) ;;
       let agentMessage :=
         {| id := JS.toString (now + 1);
            role := agent;
            content := answer payload;
            timestamp := date;
            confidence := Some (res_confidence payload);
            sources := Some (res_sources payload);
            followUpQuestions := Some (follow_up_questions payload);
            requiresEscalation := Some (requires_escalation payload) |} in
       call (setMessages_append agentMessage)
     else
       response <- property_of (Agent.response result) ;;
       call (setError
               (Some (JS.or_default
                        (JS.or_ (Agent.message response) (Agent.error result))
                        "Failed to get response"))) ;;;
       let errorMessage :=
         {| id := JS.toString (now + 1);
            role := agent;
            content := apology;
            timestamp := date;
            confidence := None;
            sources := None;
            followUpQuestions := None;
            requiresEscalation := Some true |} in
       call (setMessages_append errorMessage))
    (fun err =>
       call (setError (Some "Network error occurred")) ;;;
       let errorMessage :=
         {| id := JS.toString (now + 1);
            role := agent;
            content := trouble_connecting;
            timestamp := date;
            confidence := None;
            sources := None;
            followUpQuestions := None;
            requiresEscalation := Some true |} in
       call (setMessages_append errorMessage))
    (call (setLoading false)).

(** The setter calls made after the [await]. *)
Definition handleSend_resume (settled : Settled) (now date : Z) : list Effect :=
  fst (handleSend_settled settled now date).

(** [messageText || input.trim()]. *)
Definition textToSend (messageText : option string) (s : HomeState) : string :=
  JS.or_default messageText (JS.trim (input s)).

(** [handleSend(messageText?)], run in a render whose state is [s]; [now] and
    [date] are the readings of [Date.now()] and [new Date()]. *)
Definition handleSend (messageText : option string) (now date : Z) (s : HomeState) : Async :=
  let textToSend := textToSend messageText s in
  if negb (JS.truthy textToSend) || loading s then Return []
  else
    let userMessage :=
      {| id := JS.toString now;
         role := user;
         content := textToSend;
         timestamp := date;
         confidence := None;
         sources := None;
         followUpQuestions := None;
         requiresEscalation := None |} in
    Await [ setInput ""; setError None; setMessages_append userMessage; setLoading true ]
          textToSend AGENT_ID
          handleSend_resume.

Definition handleQuickReply (question : string) (now date : Z) (s : HomeState) : Async :=
  handleSend (Some question) now date s.

(** The mount effect: [setMessages([welcomeMessage])]. *)
Definition welcomeMessage (date : Z) : Message :=
  {| id := "welcome";
     role := agent;
     content := "Hello! I'm your customer support assistant. How can I help you today?";
     timestamp := date;
     confidence := Some 1%float;
     sources := None;
     followUpQuestions := Some STARTER_QUESTIONS;
     requiresEscalation := Some false |}.

Definition mount (date : Z) : list Effect :=
  [ setMessages [welcomeMessage date] ].

(** ** One page session *)

(** A call of [callAIAgent] that has not settled yet, with the suspended
    rest of the [handleSend] that issued it. *)
Record PendingCall : Type := mkPending {
  call_message : string;
  call_agent_id : string;
  call_resume : Settled -> Z -> Z -> list Effect
}.

Record Session : Type := mkSession {
  ui : HomeState;
  pending : list PendingCall
}.

(** What can happen to the page: the user edits the input ([onChange]);
    [handleSend] is called, from the send button or the Enter key (no
    argument) or from [handleQuickReply] (the question); the oldest pending
    call settles. Every handler runs in a render that has seen all earlier
    updates. The page disables the input and the send button while busy and
    hides the starter buttons after the first send; events are not
    restricted accordingly here, so a session allows more than the page
    does. *)
Inductive Event : Type :=
| Typed (value : string)
| Sent (messageText : option string) (now date : Z)
| Settles (settled : Settled) (now date : Z).

Definition step (w : Session) (ev : Event) : option Session :=
  match ev with
  | Typed value =>
      Some {| ui := apply_effects [setInput value] (ui w); pending := pending w |}
  | Sent messageText now date =>
      match handleSend messageText now date (ui w) with
      | Return effs =>
          Some {| ui := apply_effects effs (ui w); pending := pending w |}
      | Await effs message agent_id resume =>
          Some {| ui := apply_effects effs (ui w);
                  pending := pending w ++ [mkPending message agent_id resume] |}
      end
  | Settles settled now date =>
      match pending w with
      | [] => None
      | p :: rest =>
          Some {| ui := apply_effects (call_resume p settled now date) (ui w);
                  pending := rest |}
      end
  end.

Fixpoint run (evs : list Event) (w : Session) : option Session :=
  match evs with
  | [] => Some w
  | ev :: rest =>
      match step w ev with
      | Some w' => run rest w'
      | None => None
      end
  end.

(** The page after its first render and its mount effect. *)
Definition session_start (date : Z) : Session :=
  {| ui := apply_effects (mount date) initial_state; pending := [] |}.

(** ** The renderer *)

Inductive Handler : Type :=
| onQuickReply (question : string).

(** A chip: its label and its [onClick], if it has one. *)
Record Chip : Type := mkChip {
  label : string;
  onClick : option Handler
}.

Inductive Justify : Type := justify_start | justify_end.

(** What [ChatMessage] puts on screen for one message. *)
Record MessageView : Type := mkView {
  justify : Justify;
  bubble : string;
  confidence_badge : option JS.rounded;
  escalation_badge : bool;
  follow_up_chips : list Chip;
  time_shown : Z
}.

Definition is_true_flag (o : option bool) : bool :=
  match o with
  | Some b => b
  | None => false
  end.

Definition ChatMessage (message : Message) : MessageView :=
  let isAgent := match role message with agent => true | user => false end in
  {| justify := if isAgent then justify_start else justify_end;
     bubble := content message;
     confidence_badge :=
       if isAgent then
         match confidence message with
         | Some c => Some (JS.Math_round (c * 100)%float)
         | None => None
         end
       else None;
     escalation_badge := isAgent && is_true_flag (requiresEscalation message);
     follow_up_chips :=
       if isAgent then
         match followUpQuestions message with
         | Some qs =>
             if (0 <? length qs)%nat
             then map (fun q => {| label := q; onClick := None |}) qs
             else []
         | None => []
         end
       else [];
     time_shown := timestamp message |}.

(** The text of the confidence badge: [{n}% confident]. *)
Definition badge_text (r : JS.rounded) : option string :=
  match JS.Number_toString r with
  | Some digits => Some (digits ++ "% confident")%string
  | None => None
  end.

(** The text of the confidence badge of a view, when the badge is shown. *)
Definition badge_shown (v : MessageView) : option string :=
  match confidence_badge v with
  | Some r => badge_text r
  | None => None
  end.

(** The row of starter questions below the input of [Home]. *)
Definition starter_buttons (s : HomeState) : list Chip :=
  if (length (messages s) =? 1)%nat && negb (loading s)
  then map (fun question => {| label := question; onClick := Some (onQuickReply question) |})
           STARTER_QUESTIONS
  else [].

(** Running a handler. *)
Definition fire (h : Handler) (now date : Z) (s : HomeState) : Async :=
  match h with
  | onQuickReply question => handleQuickReply question now date s
  end.

(** ** Reading an [Async] *)

(** The setter calls made before returning or suspending. *)
Definition sync_effects (a : Async) : list Effect :=
  match a with
  | Return effs => effs
  | Await effs _ _ _ => effs
  end.

(** The text given to [callAIAgent], if a call was issued. *)
Definition outbound (a : Async) : option string :=
  match a with
  | Return _ => None
  | Await _ message _ _ => Some message
  end.

(** The text handed to [handleSend]: its argument, or else the pending input. *)
Definition given_text (messageText : option string) (s : HomeState) : string :=
  match messageText with
  | Some text => text
  | None => input s
  end.

(** The payload [handleSend] builds the agent message from: the call
    fulfilled with [success], a response of status ["success"], and a result. *)
Definition success_payload (settled : Settled) : option AgentResult :=
  match settled with
  | Fulfilled result =>
      if Agent.success result then
        match Agent.response result with
        | Some response =>
            if String.eqb (Agent.status response) "success"
            then Agent.result response
            else None
        | None => None
        end
      else None
  | Rejected _ => None
  end.

(** The messages a list of setter calls appends. *)
Definition appended (effs : list Effect) : list Message :=
  flat_map (fun e => match e with setMessages_append m => [m] | _ => [] end) effs.

(** ** The messages and outcomes of a settlement *)

(** The agent message of the success branch. *)
Definition agent_message (payload : AgentResult) (now date : Z) : Message :=
  mkMessage (JS.toString (now + 1)) agent (answer payload) date
            (Some (res_confidence payload)) (Some (res_sources payload))
            (Some (follow_up_questions payload)) (Some (requires_escalation payload)).

(** The message of the two failure paths, with its fixed text. *)
Definition synthetic_message (text : string) (now date : Z) : Message :=
  mkMessage (JS.toString (now + 1)) agent text date None None None (Some true).

(** The call fulfilled and the code took the [else] branch, with a response
    to read the message from. *)
Definition reports_error (settled : Settled) : option (Agent.AIAgentResponse * Agent.NormalizedAgentResponse) :=
  match settled with
  | Fulfilled result =>
      match Agent.response result with
      | Some response =>
          if Agent.success result && String.eqb (Agent.status response) "success"
          then None
          else Some (result, response)
      | None => None
      end
  | Rejected _ => None
  end.

(** The busy flag and the pending calls agree: idle with nothing pending,
    or busy with exactly one pending call, suspended in [handleSend]. *)
Definition coherent (w : Session) : Prop :=
  (loading (ui w) = false /\ pending w = [])
  \/ (loading (ui w) = true
      /\ exists p, pending w = [p] /\ call_resume p = handleSend_resume).

(** ** The page: what [Home] renders and the events it accepts *)

Inductive Icon : Type := Loader2 | Send.

(** What [Home] puts on screen: the message list with its React keys, the
    typing indicator, the error banner, the input with its counter, the send
    button and the row of starter questions. *)
Record HomeView : Type := mkHomeView {
  message_keys : list string;
  message_views : list MessageView;
  typing_indicator : bool;
  error_banner : option string;
  input_value : string;
  input_disabled : bool;
  input_maxLength : nat;
  counter : string;
  send_disabled : bool;
  send_icon : Icon;
  starters : list Chip
}.

Definition Home (s : HomeState) : HomeView :=
  {| message_keys := map id (messages s);
     message_views := map ChatMessage (messages s);
     typing_indicator := loading s;
     error_banner :=
       match error s with
       | Some e => if JS.truthy e then Some e else None
       | None => None
       end;
     input_value := input s;
     input_disabled := loading s;
     input_maxLength := 500;
     counter := (JS.toString (Z.of_nat (String.length (input s))) ++ "/500")%string;
     send_disabled := negb (JS.truthy (JS.trim (input s))) || loading s;
     send_icon := if loading s then Loader2 else Send;
     starters := starter_buttons s |}.

(** [handleKeyPress(e)]: whether [e.preventDefault()] was called, and the
    [handleSend()] it started, if any. *)
Definition handleKeyPress (key : string) (shiftKey : bool) (now date : Z) (s : HomeState)
  : bool * Async :=
  if String.eqb key "Enter" && negb shiftKey
  then (true, handleSend None now date s)
  else (false, Return []).

(** The session once a handler has run up to its return or its [await]. *)
Definition enter (a : Async) (w : Session) : Session :=
  match a with
  | Return effs => {| ui := apply_effects effs (ui w); pending := pending w |}
  | Await effs message agent_id resume =>
      {| ui := apply_effects effs (ui w);
         pending := pending w ++ [mkPending message agent_id resume] |}
  end.

(** What the user and the agent can do to the page as it is rendered: edit
    the input ([onChange]) or press a key in it ([onKeyPress]) unless it is
    disabled, click the send button unless it is disabled, click the
    starter button at some position if it is shown, and the pending call
    settles. *)
Inductive UiEvent : Type :=
| Change (value : string)
| KeyPress (key : string) (shiftKey : bool) (now date : Z)
| ClickSend (now date : Z)
| ClickStarter (index : nat) (now date : Z)
| Reply (settled : Settled) (now date : Z).

Definition ui_step (w : Session) (ev : UiEvent) : option Session :=
  let view := Home (ui w) in
  match ev with
  | Change value =>
      if input_disabled view then None
      else Some {| ui := apply_effects [setInput value] (ui w); pending := pending w |}
  | KeyPress key shiftKey now date =>
      if input_disabled view then None
      else Some (enter (snd (handleKeyPress key shiftKey now date (ui w))) w)
  | ClickSend now date =>
      if send_disabled view then None
      else Some (enter (handleSend None now date (ui w)) w)
  | ClickStarter index now date =>
      match nth_error (starters view) index with
      | Some chip =>
          match onClick chip with
          | Some handler => Some (enter (fire handler now date (ui w)) w)
          | None => None
          end
      | None => None
      end
  | Reply settled now date => step w (Settles settled now date)
  end.

Fixpoint ui_run (evs : list UiEvent) (w : Session) : option Session :=
  match evs with
  | [] => Some w
  | ev :: rest =>
      match ui_step w ev with
      | Some w' => ui_run rest w'
      | None => None
      end
  end.

(** ** Session invariants *)

(** The roles of a conversation: the welcome message, then [turns] pairs of a
    user message and its reply, then the user message being answered if a
    call is in flight. *)
Definition dialogue (turns : nat) (busy : bool) : list Role :=
  agent :: concat (repeat [user; agent] turns) ++ (if busy then [user] else []).

(** The call in flight carries the text of the last message of the list,
    which is a user message, and goes to the page's agent. *)
Definition call_matches_last_message (w : Session) : Prop :=
  loading (ui w) = true ->
  exists (p : PendingCall) (front : list Message) (u : Message),
    pending w = [p]
    /\ messages (ui w) = front ++ [u]
    /\ role u = user
    /\ content u = call_message p
    /\ call_message p <> ""
    /\ call_agent_id p = AGENT_ID.

(** A text is clean when it is not empty and trimming leaves it as it is. *)
Definition clean (text : string) : Prop :=
  text <> "" /\ JS.trim text = text.

(** Every user message and every pending call has a clean text, and the
    input is empty while busy. *)
Definition page_clean (w : Session) : Prop :=
  Forall (fun m => role m = user -> clean (content m)) (messages (ui w))
  /\ Forall (fun p => clean (call_message p)) (pending w)
  /\ (loading (ui w) = true -> input (ui w) = "").

(** Clock readings that keep identifiers apart: a send reads a value above
    every identifier given out so far, and a reply reads a value not below
    the last one. [last] is the largest value seen so far. *)
Fixpoint spaced (last : Z) (evs : list Event) : bool :=
  match evs with
  | [] => true
  | Typed _ :: rest => spaced last rest
  | Sent _ now _ :: rest => (last <? now) && spaced now rest
  | Settles _ now _ :: rest => (last <=? now) && spaced (now + 1) rest
  end.

(** The identifiers of a list: ["welcome"], then the decimal text of
    increasing numbers, none above [last]. *)
Definition ordered_ids (last : Z) (s : HomeState) : Prop :=
  exists zs : list Z,
    map id (messages s) = "welcome" :: map JS.toString zs
    /\ StronglySorted Z.lt zs
    /\ Forall (fun z => z <= last) zs.

(** ** Sample inputs *)

(** The page right after mounting, at clock reading 0. *)
Definition fresh_page : HomeState := ui (session_start 0).

(** A successful reply: confidence 0.92, one follow-up, no escalation. *)
Definition order_tracking_reply : Settled :=
  Fulfilled
    {| Agent.success := true;
       Agent.response :=
         Some {| Agent.status := "success";
                 Agent.result :=
                   Some {| answer := "...";
                           res_sources := [];
                           res_confidence := 0.92%float;
                           follow_up_questions := ["Q1"];
                           requires_escalation := false |};
                 Agent.message := None;
                 Agent.metadata := None |};
       Agent.error := None |}.

(** A successful reply whose confidence is half a point between two
    percentages: 0.925 times 100 is 92.5 in binary64. *)
Definition half_percent_reply : Settled :=
  Fulfilled
    {| Agent.success := true;
       Agent.response :=
         Some {| Agent.status := "success";
                 Agent.result :=
                   Some {| answer := "...";
                           res_sources := [];
                           res_confidence := 0.925%float;
                           follow_up_questions := [];
                           requires_escalation := false |};
                 Agent.message := None;
                 Agent.metadata := None |};
       Agent.error := None |}.

(** An error envelope: [{status: "error", message: "rate limited"}]. *)
Definition rate_limited_reply : Settled :=
  Fulfilled
    {| Agent.success := true;
       Agent.response :=
         Some {| Agent.status := "error";
                 Agent.result := None;
                 Agent.message := Some "rate limited";
                 Agent.metadata := None |};
       Agent.error := None |}.

(** Two sends; the second one is made one millisecond after the first
    reply arrived. *)
Definition quick_second_send : list Event :=
  [ Typed "a";
    Sent None 1700000000000 1700000000000;
    Settles (Rejected "offline") 1700000000250 1700000000250;
    Typed "b";
    Sent None 1700000000251 1700000000251 ].

(** * Properties *)

(** ** JavaScript primitives *)

Lemma truthy_nonempty (s : string) : JS.truthy s = true <-> s <> "".
Proof.
  unfold JS.truthy. destruct (String.eqb_spec s ""); simpl; split; congruence.
Qed.

Lemma trimStart_blank (s : string) : JS.blank s = true -> JS.trimStart s = "".
Proof.
  induction s as [| c rest IH]; simpl; [reflexivity |].
  intros H. apply andb_prop in H as [Hc Hrest].
  rewrite Hc. exact (IH Hrest).
Qed.

Lemma trim_blank (s : string) : JS.blank s = true -> JS.trim s = "".
Proof.
  intros H. unfold JS.trim. rewrite (trimStart_blank s H). reflexivity.
Qed.

Lemma trim_nonempty_truthy (s : string) : JS.trim s <> "" -> JS.truthy s = true.
Proof.
  intros H. apply truthy_nonempty. intros ->. apply H. reflexivity.
Qed.

(** Under [messageText || input.trim()], a given text that is not blank
    after trimming is what is sent: as it is when it is the argument, trimmed
    when it is the pending input. *)
Lemma textToSend_given (messageText : option string) (s : HomeState) :
  JS.trim (given_text messageText s) <> "" ->
  textToSend messageText s =
    match messageText with
    | Some text => text
    | None => JS.trim (input s)
    end
  /\ JS.truthy (textToSend messageText s) = true.
Proof.
  unfold textToSend, given_text, JS.or_default.
  destruct messageText as [text |]; intros H.
  - rewrite (trim_nonempty_truthy text H). split; [reflexivity |].
    exact (trim_nonempty_truthy text H).
  - split; [reflexivity |]. apply truthy_nonempty. exact H.
Qed.

(** ** The three ways [handleSend] ends after the [await] *)

Ltac run_resume :=
  unfold handleSend_resume, handleSend_settled, try_catch_finally, bind,
    await, property_of, call, ret, throw; simpl.

Lemma resume_success (settled : Settled) (payload : AgentResult) (now date : Z) :
  success_payload settled = Some payload ->
  handleSend_resume settled now date =
    [ setMessages_append (agent_message payload now date); setLoading false ].
Proof.
  destruct settled as [[ok [[st res msg meta] |] err] | reason]; simpl;
    try discriminate; destruct ok; try discriminate.
  destruct (String.eqb st "success") eqn:Hst; try discriminate.
  intros ->. run_resume. rewrite Hst. reflexivity.
Qed.

Lemma resume_reported (settled : Settled) result response (now date : Z) :
  reports_error settled = Some (result, response) ->
  handleSend_resume settled now date =
    [ setError (Some (JS.or_default
                        (JS.or_ (Agent.message response) (Agent.error result))
                        "Failed to get response"));
      setMessages_append (synthetic_message apology now date);
      setLoading false ].
Proof.
  destruct settled as [[ok [[st res msg meta] |] err] | reason]; simpl;
    try discriminate.
  destruct ok; simpl.
  - destruct (String.eqb st "success") eqn:Hst; try discriminate.
    intros H; injection H as <- <-. run_resume. rewrite Hst. reflexivity.
  - intros H; injection H as <- <-. reflexivity.
Qed.

Lemma resume_thrown (settled : Settled) (now date : Z) :
  success_payload settled = None ->
  reports_error settled = None ->
  handleSend_resume settled now date =
    [ setError (Some "Network error occurred");
      setMessages_append (synthetic_message trouble_connecting now date);
      setLoading false ].
Proof.
  destruct settled as [[ok [[st res msg meta] |] err] | reason]; simpl;
    try reflexivity.
  - destruct ok; simpl; try discriminate.
    destruct (String.eqb st "success") eqn:Hst; try discriminate.
    destruct res; try discriminate.
    intros _ _. run_resume. rewrite Hst. reflexivity.
  - destruct ok; reflexivity.
Qed.

(** Whatever the outcome: at most a [setError], then one message appended,
    then [setLoading(false)]. *)
Lemma resume_shape (settled : Settled) (now date : Z) :
  exists (report : list Effect) (m : Message),
    handleSend_resume settled now date = report ++ [setMessages_append m; setLoading false]
    /\ role m = agent
    /\ id m = JS.toString (now + 1)
    /\ (report = [] \/ exists e, report = [setError (Some e)]).
Proof.
  destruct (success_payload settled) as [payload |] eqn:Hs.
  - exists [], (agent_message payload now date).
    rewrite (resume_success settled payload now date Hs). auto.
  - destruct (reports_error settled) as [[result response] |] eqn:Hr.
    + eexists [_], (synthetic_message apology now date).
      rewrite (resume_reported settled result response now date Hr).
      repeat split; eauto.
    + eexists [_], (synthetic_message trouble_connecting now date).
      rewrite (resume_thrown settled now date Hs Hr).
      repeat split; eauto.
Qed.

Lemma resume_state (settled : Settled) (now date : Z) (s : HomeState) :
  exists m : Message,
    messages (apply_effects (handleSend_resume settled now date) s) = messages s ++ [m]
    /\ role m = agent
    /\ id m = JS.toString (now + 1)
    /\ appended (handleSend_resume settled now date) = [m]
    /\ loading (apply_effects (handleSend_resume settled now date) s) = false
    /\ input (apply_effects (handleSend_resume settled now date) s) = input s.
Proof.
  destruct (resume_shape settled now date) as (report & m & -> & Hrole & Hid & Hrep).
  exists m.
  destruct Hrep as [-> | [e ->]]; simpl; auto 10.
Qed.

(** ** The session invariant *)

Lemma start_coherent (date : Z) : coherent (session_start date).
Proof. left. split; reflexivity. Qed.

Lemma busy_returns (messageText : option string) (now date : Z) (s : HomeState) :
  loading s = true -> handleSend messageText now date s = Return [].
Proof.
  intros H. unfold handleSend. rewrite H, orb_true_r. reflexivity.
Qed.

(** Whenever [handleSend] suspends, it was not busy, it has set the busy
    flag, and what is suspended is [handleSend_resume]. *)
Lemma await_inversion (messageText : option string) (now date : Z) (s : HomeState)
      effs message agent_id resume :
  handleSend messageText now date s = Await effs message agent_id resume ->
  loading s = false
  /\ loading (apply_effects effs s) = true
  /\ message = textToSend messageText s
  /\ JS.truthy message = true
  /\ agent_id = AGENT_ID
  /\ resume = handleSend_resume.
Proof.
  unfold handleSend.
  destruct (JS.truthy (textToSend messageText s)) eqn:Ht; simpl; [| discriminate].
  destruct (loading s) eqn:Hl; [discriminate |].
  intros H. injection H as <- <- <- <-. auto 10.
Qed.

Lemma step_coherent (w w' : Session) (ev : Event) :
  coherent w -> step w ev = Some w' -> coherent w'.
Proof.
  intros Hc. destruct ev as [value | messageText now date | settled now date]; simpl.
  - intros H. injection H as <-. exact Hc.
  - destruct (handleSend messageText now date (ui w))
      as [effs | effs message agent_id resume] eqn:Hs; intros H; injection H as <-.
    + destruct Hc as [[Hl Hp] | [Hl Hp]].
      * unfold handleSend in Hs. rewrite Hl, orb_false_r in Hs.
        destruct (negb _); [| discriminate]. injection Hs as <-. left. auto.
      * rewrite (busy_returns messageText now date (ui w) Hl) in Hs.
        injection Hs as <-. right. auto.
    + apply await_inversion in Hs as (Hidle & Hbusy & _ & _ & _ & ->).
      destruct Hc as [[_ Hp] | [Hl _]]; [| congruence].
      right. simpl. rewrite Hp. split; [exact Hbusy |]. eexists. split; reflexivity.
  - destruct Hc as [[_ Hp] | [_ (p & Hp & Hk)]]; rewrite Hp; [discriminate |].
    intros H. injection H as <-. left. simpl. rewrite Hk.
    destruct (resume_state settled now date (ui w)) as (m & _ & _ & _ & _ & Hl & _).
    auto.
Qed.

Lemma run_coherent (evs : list Event) :
  forall w w', coherent w -> run evs w = Some w' -> coherent w'.
Proof.
  induction evs as [| ev rest IH]; simpl; intros w w' Hc.
  - intros H. injection H as <-. exact Hc.
  - destruct (step w ev) as [w1 |] eqn:Hstep; [| discriminate].
    apply IH. exact (step_coherent w w1 ev Hc Hstep).
Qed.

Lemma reachable_coherent (evs : list Event) (date0 : Z) (w : Session) :
  run evs (session_start date0) = Some w -> coherent w.
Proof. apply run_coherent, start_coherent. Qed.

(** ** Sending *)

(** C1. When no call is in flight and the given text (the argument of
    [handleSend], or the pending input when there is none) is not blank
    after trimming, [handleSend] appends exactly one user message before it
    issues the call, and its resumption appends exactly one agent message,
    whatever the call settles to. *)
Theorem send_appends_one_user_then_one_agent :
  forall (messageText : option string) (now date : Z) (s : HomeState),
    loading s = false ->
    JS.trim (given_text messageText s) <> "" ->
    exists u : Message,
      handleSend messageText now date s =
        Await [setInput ""; setError None; setMessages_append u; setLoading true]
              (textToSend messageText s) AGENT_ID handleSend_resume
      /\ role u = user
      /\ content u = textToSend messageText s
      /\ messages (apply_effects (sync_effects (handleSend messageText now date s)) s)
         = messages s ++ [u]
      /\ forall (settled : Settled) (now' date' : Z),
           exists a : Message,
             role a = agent
             /\ appended (handleSend_resume settled now' date') = [a]
             /\ messages
                  (apply_effects (handleSend_resume settled now' date')
                     (apply_effects (sync_effects (handleSend messageText now date s)) s))
                = messages s ++ [u; a].
Proof.
  intros messageText now date s Hidle Htext.
  destruct (textToSend_given messageText s Htext) as [_ Htruthy].
  unfold handleSend. rewrite Htruthy, Hidle. simpl.
  eexists. split; [reflexivity |]. simpl.
  split; [reflexivity |]. split; [reflexivity |]. split; [reflexivity |].
  intros settled now' date'.
  match goal with
  | |- context [apply_effects _ ?s1] =>
      destruct (resume_state settled now' date' s1) as (a & Hm & Hrole & _ & Happ & _)
  end.
  exists a. split; [exact Hrole |]. split; [exact Happ |].
  rewrite Hm. simpl. rewrite <- app_assoc. reflexivity.
Qed.

Lemma send_appends_one_user_then_one_agent_witness :
  loading fresh_page = false
  /\ JS.trim (given_text (Some "How can I track my order?") fresh_page) <> ""
  /\ exists u : Message,
       handleSend (Some "How can I track my order?") 1000 1000 fresh_page =
         Await [setInput ""; setError None; setMessages_append u; setLoading true]
               (textToSend (Some "How can I track my order?") fresh_page)
               AGENT_ID handleSend_resume
       /\ role u = user
       /\ content u = textToSend (Some "How can I track my order?") fresh_page
       /\ messages
            (apply_effects
               (sync_effects (handleSend (Some "How can I track my order?") 1000 1000 fresh_page))
               fresh_page)
          = messages fresh_page ++ [u]
       /\ forall (settled : Settled) (now' date' : Z),
            exists a : Message,
              role a = agent
              /\ appended (handleSend_resume settled now' date') = [a]
              /\ messages
                   (apply_effects (handleSend_resume settled now' date')
                      (apply_effects
                         (sync_effects
                            (handleSend (Some "How can I track my order?") 1000 1000 fresh_page))
                         fresh_page))
                 = messages fresh_page ++ [u; a].
Proof.
  split; [reflexivity |].
  split; [vm_compute; discriminate |].
  apply (send_appends_one_user_then_one_agent
           (Some "How can I track my order?") 1000 1000 fresh_page).
  - reflexivity.
  - vm_compute; discriminate.
Defined.

(** C2. While the busy flag is set, [handleSend] returns at once: it calls
    no setter and issues no call, so the session is left as it was; and in
    every session at most one call is pending. *)
Theorem busy_send_is_noop_and_one_call_in_flight :
  (forall (s : HomeState) (messageText : option string) (now date : Z),
      loading s = true ->
      handleSend messageText now date s = Return []
      /\ outbound (handleSend messageText now date s) = None
      /\ apply_effects (sync_effects (handleSend messageText now date s)) s = s)
  /\ (forall (w : Session) (messageText : option string) (now date : Z),
         loading (ui w) = true ->
         step w (Sent messageText now date) = Some w)
  /\ (forall (evs : list Event) (date0 : Z) (w : Session),
         run evs (session_start date0) = Some w ->
         (length (pending w) <= 1)%nat).
Proof.
  split; [| split].
  - intros s messageText now date Hbusy.
    rewrite (busy_returns messageText now date s Hbusy). auto.
  - intros [s pend] messageText now date Hbusy. simpl in *.
    rewrite (busy_returns messageText now date s Hbusy). reflexivity.
  - intros evs date0 w Hrun.
    destruct (reachable_coherent evs date0 w Hrun) as [[_ ->] | [_ (p & -> & _)]];
      simpl; lia.
Qed.

Lemma busy_send_is_noop_and_one_call_in_flight_witness :
  exists w : Session,
    run [Sent (Some "How can I track my order?") 1000 1000] (session_start 0) = Some w
    /\ loading (ui w) = true
    /\ length (pending w) = 1%nat
    /\ handleSend (Some "What are your business hours?") 1001 1001 (ui w) = Return []
    /\ step w (Sent (Some "What are your business hours?") 1001 1001) = Some w.
Proof.
  eexists. split; [reflexivity |].
  split; [reflexivity |].
  split; [reflexivity |].
  pose proof busy_send_is_noop_and_one_call_in_flight as (Hnoop & Hstep & _).
  split.
  - apply Hnoop. reflexivity.
  - apply Hstep. reflexivity.
Defined.

(** ** Errors *)

(** C3. When the call does not yield a success payload, the resumption of
    [handleSend] appends exactly one agent message flagged for escalation and
    clears the busy flag, and a following send is accepted. It does so in
    two ways. If the call fulfilled with a response that is not a success,
    last-error is the response's message when it is present and not empty,
    otherwise the envelope's error or the fallback text, and the message is
    the apology. If the call rejected, last-error is the network-error text
    and the message is the trouble-connecting one. *)
Theorem failure_kinds :
  forall (settled : Settled) (now date : Z) (s : HomeState),
    success_payload settled = None ->
    let s' := apply_effects (handleSend_resume settled now date) s in
    loading s' = false
    /\ (forall (text : string) (now' date' : Z),
           JS.trim text <> "" ->
           outbound (handleSend (Some text) now' date' s') = Some text)
    /\ (exists m : Message,
           messages s' = messages s ++ [m]
           /\ role m = agent
           /\ requiresEscalation m = Some true
           /\ (content m = apology \/ content m = trouble_connecting))
    /\ (forall result response,
           reports_error settled = Some (result, response) ->
           messages s' = messages s ++ [synthetic_message apology now date]
           /\ error s' = Some (JS.or_default
                                 (JS.or_ (Agent.message response) (Agent.error result))
                                 "Failed to get response")
           /\ (forall text, Agent.message response = Some text -> text <> "" ->
                            error s' = Some text)
           /\ (Agent.message response = None -> Agent.error result = None ->
               error s' = Some "Failed to get response"))
    /\ (forall reason,
           settled = Rejected reason ->
           messages s' = messages s ++ [synthetic_message trouble_connecting now date]
           /\ error s' = Some "Network error occurred").
Proof.
  intros settled now date s Hfail s'.
  assert (Hidle : loading s' = false).
  { destruct (resume_state settled now date s) as (m & _ & _ & _ & _ & Hl & _).
    exact Hl. }
  split; [exact Hidle |].
  split.
  { intros text now' date' Htext. unfold handleSend.
    destruct (textToSend_given (Some text) s' Htext) as [Heq Htruthy].
    rewrite Htruthy, Hidle, Heq. reflexivity. }
  destruct (reports_error settled) as [[result response] |] eqn:Hrep.
  - pose proof (resume_reported settled result response now date Hrep) as Hshape.
    assert (Hm : messages s' = messages s ++ [synthetic_message apology now date]).
    { subst s'. rewrite Hshape. reflexivity. }
    assert (He : error s' = Some (JS.or_default
                                    (JS.or_ (Agent.message response) (Agent.error result))
                                    "Failed to get response")).
    { subst s'. rewrite Hshape. reflexivity. }
    split; [| split].
    + exists (synthetic_message apology now date). simpl. auto.
    + intros result' response' H. injection H as <- <-.
      split; [exact Hm |]. split; [exact He |]. split.
      * intros text Hmsg Hne. rewrite He, Hmsg. simpl.
        apply truthy_nonempty in Hne. rewrite Hne. simpl. rewrite Hne. reflexivity.
      * intros Hmsg Herr. rewrite He, Hmsg, Herr. reflexivity.
    + intros reason ->. discriminate.
  - pose proof (resume_thrown settled now date Hfail Hrep) as Hshape.
    split; [| split].
    + exists (synthetic_message trouble_connecting now date).
      subst s'. rewrite Hshape. simpl. auto.
    + intros result response H. discriminate.
    + intros reason _. subst s'. rewrite Hshape. split; reflexivity.
Qed.

Lemma failure_kinds_witness :
  success_payload rate_limited_reply = None
  /\ error (apply_effects (handleSend_resume rate_limited_reply 1000 1000) fresh_page)
     = Some "rate limited"
  /\ loading (apply_effects (handleSend_resume rate_limited_reply 1000 1000) fresh_page)
     = false.
Proof.
  split; [reflexivity |].
  pose proof (failure_kinds rate_limited_reply 1000 1000 fresh_page eq_refl)
    as (Hidle & _ & _ & Hreported & _).
  split; [| exact Hidle].
  destruct (Hreported _ _ eq_refl) as (_ & _ & Hmessage & _).
  apply Hmessage; [reflexivity | discriminate].
Defined.

(** ** The busy flag *)

(** C4. In every session the busy flag is set exactly while a call is
    pending. [handleSend] sets it when it issues the call, and its resumption
    ends with [setLoading(false)] whatever the call settled to, which leaves
    the session idle with nothing pending. *)
Theorem busy_exactly_while_in_flight :
  forall (evs : list Event) (date0 : Z) (w : Session),
    run evs (session_start date0) = Some w ->
    (loading (ui w) = true <-> pending w <> [])
    /\ (forall messageText now date effs message agent_id resume,
           handleSend messageText now date (ui w) = Await effs message agent_id resume ->
           loading (ui w) = false /\ loading (apply_effects effs (ui w)) = true)
    /\ (forall (settled : Settled) (now date : Z) (s : HomeState),
           (exists effs, handleSend_resume settled now date = effs ++ [setLoading false])
           /\ loading (apply_effects (handleSend_resume settled now date) s) = false)
    /\ (forall (settled : Settled) (now date : Z) (w' : Session),
           step w (Settles settled now date) = Some w' ->
           loading (ui w) = true /\ loading (ui w') = false /\ pending w' = []).
Proof.
  intros evs date0 w Hrun.
  pose proof (reachable_coherent evs date0 w Hrun) as Hc.
  split; [| split; [| split]].
  - destruct Hc as [[Hl Hp] | [Hl (p & Hp & _)]]; rewrite Hl, Hp; split;
      congruence.
  - intros messageText now date effs message agent_id resume Hs.
    apply await_inversion in Hs as (Hidle & Hbusy & _). auto.
  - intros settled now date s. split.
    + destruct (resume_shape settled now date) as (report & m & -> & _).
      exists (report ++ [setMessages_append m]). rewrite <- app_assoc. reflexivity.
    + destruct (resume_state settled now date s) as (m & _ & _ & _ & _ & Hl & _).
      exact Hl.
  - intros settled now date w' Hstep.
    pose proof (step_coherent w w' _ Hc Hstep) as Hc'.
    simpl in Hstep.
    destruct Hc as [[_ Hp] | [Hl (p & Hp & Hk)]]; rewrite Hp in Hstep;
      [discriminate |].
    injection Hstep as <-. simpl. rewrite Hk.
    destruct (resume_state settled now date (ui w)) as (m & _ & _ & _ & _ & Hidle & _).
    auto.
Qed.

Lemma busy_exactly_while_in_flight_witness :
  exists w : Session,
    run [Typed "hello"; Sent None 1000 1000] (session_start 0) = Some w
    /\ pending w <> []
    /\ loading (ui w) = true.
Proof.
  eexists. split; [reflexivity |].
  split; [discriminate |].
  apply (busy_exactly_while_in_flight [Typed "hello"; Sent None 1000 1000] 0 _ eq_refl).
  discriminate.
Defined.

(** ** The success path and its rendering *)

(** [Math.round] on a number with a fractional part returns the integer [n]
    with [n - 1/2 <= x < n + 1/2]: nearest, ties upwards. *)
Lemma Math_round_nearest (x : float) (s : bool) (m : positive) (e : Z) :
  Prim2SF x = S754_finite s m e ->
  e < 0 ->
  exists n : Z,
    JS.Math_round x = JS.RInteger n
    /\ let v := if s then Z.neg m else Z.pos m in
       (2 * n - 1) * 2 ^ (- e) <= 2 * v < (2 * n + 1) * 2 ^ (- e).
Proof.
  intros Hx He. unfold JS.Math_round. rewrite Hx.
  destruct (Z.leb_spec 0 e) as [Hle | _]; [lia |].
  eexists. split; [reflexivity |].
  cbv zeta. set (v := if s then Z.neg m else Z.pos m).
  replace (1 - e) with (Z.succ (- e)) by lia.
  rewrite Z.pow_succ_r by lia.
  assert (Hd : 0 < 2 ^ (- e)) by (apply Z.pow_pos_nonneg; lia).
  set (d := 2 ^ (- e)) in *.
  pose proof (Z.div_mod (2 * v + d) (2 * d) ltac:(lia)) as Hdiv.
  pose proof (Z.mod_pos_bound (2 * v + d) (2 * d) ltac:(lia)) as Hmod.
  set (q := (2 * v + d) / (2 * d)) in *.
  nia.
Qed.

(** C5. On the success path the appended agent message carries the payload
    field by field, and [ChatMessage] shows its confidence as a rounded
    percentage followed by ["% confident"]. With [x] the binary64 product of
    the confidence and 100, the badge holds the integer [n] nearest to [x]:
    [x] itself when [x] is whole, and otherwise the [n] with
    [n - 1/2 <= x < n + 1/2], so that halves go up; its text is the decimal
    text of [n]. For 0.92 the badge reads ["92% confident"], for 0.925 it
    reads ["93% confident"] and for 0.424 it reads ["42% confident"]. The
    escalation badge follows the payload's flag, and there is one chip per
    follow-up question. *)
Theorem success_message_mirrors_payload :
  forall (settled : Settled) (payload : AgentResult) (now date : Z) (s : HomeState),
    success_payload settled = Some payload ->
    let s' := apply_effects (handleSend_resume settled now date) s in
    exists a : Message,
      messages s' = messages s ++ [a]
      /\ role a = agent
      /\ content a = answer payload
      /\ confidence a = Some (res_confidence payload)
      /\ sources a = Some (res_sources payload)
      /\ followUpQuestions a = Some (follow_up_questions payload)
      /\ requiresEscalation a = Some (requires_escalation payload)
      /\ confidence_badge (ChatMessage a)
         = Some (JS.Math_round (res_confidence payload * 100)%float)
      /\ (res_confidence payload = 0.92%float ->
          badge_shown (ChatMessage a) = Some "92% confident")
      /\ escalation_badge (ChatMessage a) = requires_escalation payload
      /\ follow_up_chips (ChatMessage a)
         = map (fun q => {| label := q; onClick := None |}) (follow_up_questions payload)
      /\ length (follow_up_chips (ChatMessage a)) = length (follow_up_questions payload)
      /\ (res_confidence payload = 0.925%float ->
          badge_shown (ChatMessage a) = Some "93% confident")
      /\ (res_confidence payload = 0.424%float ->
          badge_shown (ChatMessage a) = Some "42% confident")
      /\ (forall sign : bool,
             Prim2SF (res_confidence payload * 100)%float = S754_zero sign ->
             badge_shown (ChatMessage a) = Some "0% confident")
      /\ (forall (sign : bool) (mant : positive) (e : Z),
             Prim2SF (res_confidence payload * 100)%float = S754_finite sign mant e ->
             exists n : Z,
               confidence_badge (ChatMessage a) = Some (JS.RInteger n)
               /\ (Z.abs n <= 2 ^ 53 ->
                   badge_shown (ChatMessage a)
                   = Some (JS.toString n ++ "% confident")%string)
               /\ let v := if sign then Z.neg mant else Z.pos mant in
                  (0 <= e -> n = v * 2 ^ e)
                  /\ (e < 0 ->
                      (2 * n - 1) * 2 ^ (- e) <= 2 * v < (2 * n + 1) * 2 ^ (- e))).
Proof.
  intros settled payload now date s Hok s'.
  exists (agent_message payload now date).
  subst s'. rewrite (resume_success settled payload now date Hok).
  assert (Hchips :
            follow_up_chips (ChatMessage (agent_message payload now date))
            = map (fun q => {| label := q; onClick := None |}) (follow_up_questions payload)).
  { unfold ChatMessage. simpl. destruct (follow_up_questions payload); reflexivity. }
  assert (Hbadge :
            confidence_badge (ChatMessage (agent_message payload now date))
            = Some (JS.Math_round (res_confidence payload * 100)%float))
    by reflexivity.
  assert (Hinstance :
            forall (c : float) (text : string),
              badge_text (JS.Math_round (c * 100)%float) = Some text ->
              res_confidence payload = c ->
              badge_shown (ChatMessage (agent_message payload now date)) = Some text).
  { intros c text Htext Hc. unfold badge_shown. rewrite Hbadge, Hc. exact Htext. }
  repeat (split; [reflexivity |]).
  split; [apply Hinstance; vm_compute; reflexivity |].
  split; [reflexivity |].
  split; [exact Hchips |].
  split; [rewrite Hchips; apply length_map |].
  split; [apply Hinstance; vm_compute; reflexivity |].
  split; [apply Hinstance; vm_compute; reflexivity |].
  split.
  { intros sign Hx. unfold badge_shown. rewrite Hbadge.
    unfold JS.Math_round. rewrite Hx. reflexivity. }
  intros sign mant e Hx.
  assert (Hn : exists n : Z,
             JS.Math_round (res_confidence payload * 100)%float = JS.RInteger n
             /\ let v := if sign then Z.neg mant else Z.pos mant in
                (0 <= e -> n = v * 2 ^ e)
                /\ (e < 0 ->
                    (2 * n - 1) * 2 ^ (- e) <= 2 * v < (2 * n + 1) * 2 ^ (- e))).
  { destruct (Z.leb_spec 0 e) as [Hle | Hlt].
    - exists ((if sign then Z.neg mant else Z.pos mant) * 2 ^ e). split.
      + unfold JS.Math_round. rewrite Hx.
        destruct (Z.leb_spec 0 e); [reflexivity | lia].
      + cbv zeta. split; [reflexivity | lia].
    - destruct (Math_round_nearest _ sign mant e Hx Hlt) as (n & Hround & Hbounds).
      exists n. split; [exact Hround |].
      cbv zeta in *. split; [lia | intros _; exact Hbounds]. }
  destruct Hn as (n & Hround & Hbounds).
  exists n. rewrite Hbadge, Hround. split; [reflexivity |].
  split; [| exact Hbounds].
  intros Hsafe. unfold badge_shown. rewrite Hbadge, Hround.
  unfold badge_text, JS.Number_toString.
  destruct (Z.leb_spec (Z.abs n) (2 ^ 53)) as [_ | Hbig]; [reflexivity | lia].
Qed.

Lemma success_message_mirrors_payload_witness :
  (exists (payload : AgentResult) (a : Message),
      success_payload order_tracking_reply = Some payload
      /\ messages (apply_effects (handleSend_resume order_tracking_reply 1000 1000) fresh_page)
         = messages fresh_page ++ [a]
      /\ badge_shown (ChatMessage a) = Some "92% confident"
      /\ escalation_badge (ChatMessage a) = false
      /\ length (follow_up_chips (ChatMessage a)) = 1%nat)
  /\ (exists (payload : AgentResult) (a : Message),
         success_payload half_percent_reply = Some payload
         /\ messages (apply_effects (handleSend_resume half_percent_reply 1000 1000) fresh_page)
            = messages fresh_page ++ [a]
         /\ confidence_badge (ChatMessage a) = Some (JS.RInteger 93)
         /\ badge_shown (ChatMessage a) = Some "93% confident").
Proof.
  split.
  - eexists.
    destruct (success_message_mirrors_payload order_tracking_reply _ 1000 1000 fresh_page eq_refl)
      as (a & Hm & _ & _ & _ & _ & _ & _ & _ & Hbadge & Hesc & _ & Hlen & _).
    exists a. split; [reflexivity |].
    split; [exact Hm |].
    split; [apply Hbadge; reflexivity |].
    split; [exact Hesc | exact Hlen].
  - eexists.
    destruct (success_message_mirrors_payload half_percent_reply _ 1000 1000 fresh_page eq_refl)
      as (a & Hm & _ & _ & _ & _ & _ & _ & _ & _ & _ & _ & _ & _ & _ & _ & Hnearest).
    exists a. split; [reflexivity |].
    split; [exact Hm |].
    destruct (Hnearest false 6509108836433920%positive (-46) eq_refl)
      as (n & Hn & Htext & _ & Hbounds).
    specialize (Hbounds ltac:(lia)).
    change (2 ^ (- -46)) with 70368744177664 in Hbounds.
    assert (H93 : n = 93) by lia.
    subst n. split; [exact Hn |].
    apply Htext. vm_compute. discriminate.
Defined.

(** ** Blank input *)

(** C6, as the code has it. When the pending input is empty or white space
    only, [handleSend] called without a text (send button, Enter key) or with
    the empty text returns at once: no setter is called, no call is issued,
    and the session is left as it was. *)
Theorem blank_input_send_is_noop :
  forall (s : HomeState) (now date : Z),
    JS.blank (input s) = true ->
    handleSend None now date s = Return []
    /\ handleSend (Some "") now date s = Return []
    /\ (forall pend,
           step (mkSession s pend) (Sent None now date) = Some (mkSession s pend)).
Proof.
  intros s now date Hblank.
  pose proof (trim_blank (input s) Hblank) as Htrim.
  assert (Hnone : handleSend None now date s = Return []).
  { unfold handleSend, textToSend. simpl. rewrite Htrim. reflexivity. }
  split; [exact Hnone |]. split.
  - unfold handleSend, textToSend. simpl. rewrite Htrim. reflexivity.
  - intros pend. simpl. rewrite Hnone. reflexivity.
Qed.

Lemma blank_input_send_is_noop_witness :
  JS.blank (input (apply_effects [setInput "   "] fresh_page)) = true
  /\ handleSend None 1000 1000 (apply_effects [setInput "   "] fresh_page) = Return [].
Proof.
  split; [reflexivity |].
  apply (blank_input_send_is_noop (apply_effects [setInput "   "] fresh_page) 1000 1000).
  reflexivity.
Defined.

(** C6 as stated fails when the blank text is the argument of [handleSend]:
    a text of one space is truthy, so it is appended as a user message and
    sent to the agent as it is. *)
Lemma blank_argument_is_sent :
  JS.blank " " = true
  /\ outbound (handleSend (Some " ") 1000 1000 fresh_page) = Some " "
  /\ map content (appended (sync_effects (handleSend (Some " ") 1000 1000 fresh_page)))
     = [" "]
  /\ length (messages
               (apply_effects (sync_effects (handleSend (Some " ") 1000 1000 fresh_page))
                              fresh_page))
     = S (length (messages fresh_page)).
Proof. repeat split. Qed.

(** ** Quick replies *)

(** C7, as the code has it. [handleQuickReply question] is
    [handleSend question]: same setter calls, same call, same resumption.
    The text given to [callAIAgent] is the question as it is when it is not
    empty, and the trimmed pending input otherwise; it is the trimmed
    question for every question that trimming leaves unchanged, which
    includes the starter questions. *)
Theorem quick_reply_is_send_with_argument :
  forall (question : string) (now date : Z) (s : HomeState),
    handleQuickReply question now date s = handleSend (Some question) now date s
    /\ (forall text,
           outbound (handleQuickReply question now date s) = Some text ->
           text = (if JS.truthy question then question else JS.trim (input s)))
    /\ (loading s = false -> question <> "" ->
        outbound (handleQuickReply question now date s) = Some question)
    /\ (loading s = false -> question <> "" -> JS.trim question = question ->
        outbound (handleQuickReply question now date s) = Some (JS.trim question))
    /\ (In question STARTER_QUESTIONS -> JS.trim question = question).
Proof.
  intros question now date s.
  assert (Hsent : loading s = false -> question <> "" ->
                  outbound (handleQuickReply question now date s) = Some question).
  { intros Hidle Hne. apply truthy_nonempty in Hne.
    unfold handleQuickReply, handleSend, textToSend. simpl.
    rewrite Hne. simpl. rewrite Hne, Hidle. reflexivity. }
  split; [reflexivity |].
  split.
  { intros text. unfold handleQuickReply.
    destruct (handleSend (Some question) now date s)
      as [effs | effs message agent_id resume] eqn:Hs; simpl; [discriminate |].
    apply await_inversion in Hs as (_ & _ & -> & _).
    intros H. injection H as <-. reflexivity. }
  split; [exact Hsent |].
  split.
  { intros Hidle Hne ->. exact (Hsent Hidle Hne). }
  simpl. intros [<- | [<- | [<- | [<- | []]]]]; reflexivity.
Qed.

(** C7 as stated fails on its last part: a question with spaces around it
    goes to [callAIAgent] with its spaces, not trimmed. *)
Lemma quick_reply_text_is_not_trimmed :
  outbound (handleQuickReply " hi " 1000 1000 fresh_page) = Some " hi "
  /\ JS.trim " hi " = "hi"
  /\ String.eqb " hi " (JS.trim " hi ") = false.
Proof. repeat split. Qed.

(** ** Identifiers *)

(** C8 at a failing input. The agent message takes [Date.now() + 1] as its
    identifier and the next user message takes [Date.now()]: a send made one
    millisecond after a reply arrived repeats the reply's identifier. *)
Lemma identifiers_collide_after_one_millisecond :
  exists w : Session,
    run quick_second_send (session_start 0) = Some w
    /\ map id (messages (ui w))
       = ["welcome"; "1700000000000"; "1700000000251"; "1700000000251"]
    /\ map role (messages (ui w)) = [agent; user; agent; user]
    /\ ~ NoDup (map id (messages (ui w))).
Proof.
  eexists. split; [reflexivity |].
  split; [reflexivity |].
  split; [reflexivity |].
  simpl. intros H.
  inversion H as [| ? ? _ H1]; subst.
  inversion H1 as [| ? ? _ H2]; subst.
  inversion H2 as [| ? ? Hin _]; subst.
  apply Hin. left. reflexivity.
Qed.

(** ** Follow-up chips *)

(** C9, as the code has it. For an agent message with follow-up questions,
    [ChatMessage] shows one chip per question, in order, labelled with the
    question, and none of them has a click handler. The chips that run
    [handleQuickReply] are the starter buttons of [Home], shown while the
    list holds one message and no call is in flight. *)
Theorem follow_up_chips_are_labels :
  forall (m : Message) (qs : list string),
    role m = agent ->
    followUpQuestions m = Some qs ->
    qs <> [] ->
    follow_up_chips (ChatMessage m) = map (fun q => {| label := q; onClick := None |}) qs
    /\ length (follow_up_chips (ChatMessage m)) = length qs
    /\ map label (follow_up_chips (ChatMessage m)) = qs
    /\ (forall chip, In chip (follow_up_chips (ChatMessage m)) -> onClick chip = None)
    /\ (forall s : HomeState,
           length (messages s) = 1%nat -> loading s = false ->
           starter_buttons s
           = map (fun q => {| label := q; onClick := Some (onQuickReply q) |})
                 STARTER_QUESTIONS)
    /\ (forall question now date s,
           fire (onQuickReply question) now date s = handleQuickReply question now date s).
Proof.
  intros m qs Hrole Hqs Hne.
  assert (Hchips : follow_up_chips (ChatMessage m)
                   = map (fun q => {| label := q; onClick := None |}) qs).
  { unfold ChatMessage. simpl. rewrite Hrole, Hqs.
    destruct qs; [congruence | reflexivity]. }
  rewrite Hchips.
  split; [reflexivity |].
  split; [apply length_map |].
  split.
  { rewrite map_map. simpl. apply map_id. }
  split.
  { intros chip Hin. apply in_map_iff in Hin as (q & <- & _). reflexivity. }
  split.
  { intros s Hlen Hidle. unfold starter_buttons. rewrite Hlen, Hidle. reflexivity. }
  reflexivity.
Qed.

Lemma follow_up_chips_are_labels_witness :
  role (welcomeMessage 0) = agent
  /\ followUpQuestions (welcomeMessage 0) = Some STARTER_QUESTIONS
  /\ length (follow_up_chips (ChatMessage (welcomeMessage 0))) = 4%nat.
Proof.
  split; [reflexivity |].
  split; [reflexivity |].
  apply (follow_up_chips_are_labels (welcomeMessage 0) STARTER_QUESTIONS);
    [reflexivity | reflexivity | discriminate].
Defined.

(** C9 as stated fails: the chip of a follow-up question is a badge without
    a click handler, not one that runs [handleQuickReply] with the question. *)
Lemma follow_up_chip_has_no_handler :
  follow_up_chips
    (ChatMessage (agent_message
                    {| answer := "..."; res_sources := []; res_confidence := 0.92%float;
                       follow_up_questions := ["Q1"]; requires_escalation := false |}
                    1000 1000))
  = [ {| label := "Q1"; onClick := None |} ]
  /\ {| label := "Q1"; onClick := None |}
     <> {| label := "Q1"; onClick := Some (onQuickReply "Q1") |}.
Proof. split; [reflexivity | discriminate]. Qed.

(** ** Synthetic messages *)

(** C10. On every failure path the appended agent message has no
    confidence, no sources and no follow-up questions, and it is flagged for
    escalation; [ChatMessage] shows its fixed text and the escalation badge,
    and neither a confidence badge nor a chip. *)
Theorem synthetic_message_shows_only_text_and_escalation :
  forall (settled : Settled) (now date : Z) (s : HomeState),
    success_payload settled = None ->
    exists m : Message,
      appended (handleSend_resume settled now date) = [m]
      /\ messages (apply_effects (handleSend_resume settled now date) s) = messages s ++ [m]
      /\ role m = agent
      /\ (content m = apology \/ content m = trouble_connecting)
      /\ confidence m = None
      /\ sources m = None
      /\ followUpQuestions m = None
      /\ requiresEscalation m = Some true
      /\ bubble (ChatMessage m) = content m
      /\ confidence_badge (ChatMessage m) = None
      /\ badge_shown (ChatMessage m) = None
      /\ follow_up_chips (ChatMessage m) = []
      /\ escalation_badge (ChatMessage m) = true.
Proof.
  intros settled now date s Hfail.
  destruct (reports_error settled) as [[result response] |] eqn:Hrep.
  - exists (synthetic_message apology now date).
    rewrite (resume_reported settled result response now date Hrep).
    simpl. auto 15.
  - exists (synthetic_message trouble_connecting now date).
    rewrite (resume_thrown settled now date Hfail Hrep).
    simpl. auto 15.
Qed.

Lemma synthetic_message_shows_only_text_and_escalation_witness :
  success_payload (Rejected "offline") = None
  /\ exists m : Message,
       appended (handleSend_resume (Rejected "offline") 1000 1000) = [m]
       /\ content m = trouble_connecting
       /\ confidence_badge (ChatMessage m) = None
       /\ follow_up_chips (ChatMessage m) = []
       /\ escalation_badge (ChatMessage m) = true.
Proof.
  split; [reflexivity |].
  destruct (synthetic_message_shows_only_text_and_escalation
              (Rejected "offline") 1000 1000 fresh_page eq_refl)
    as (m & Happ & _ & _ & _ & _ & _ & _ & _ & _ & Hbadge & _ & Hchips & Hesc).
  exists m. split; [exact Happ |].
  split; [| auto].
  simpl in Happ. injection Happ as <-. reflexivity.
Defined.

(** * Further properties of the page *)

(** ** Trimming *)

Lemma trimStart_cases (s : string) :
  (JS.trimStart s = "" /\ JS.blank s = true)
  \/ (exists c rest, JS.trimStart s = String c rest /\ JS.isWhiteSpace c = false).
Proof.
  induction s as [| c rest IH]; simpl.
  - left. auto.
  - destruct (JS.isWhiteSpace c) eqn:Hc.
    + destruct IH as [[H1 H2] | H]; [left; auto | right; exact H].
    + right. exists c, rest. auto.
Qed.

Lemma trimEnd_head (c : ascii) (rest : string) :
  JS.isWhiteSpace c = false ->
  exists kept, JS.trimEnd (String c rest) = String c kept.
Proof.
  intros Hc. simpl. destruct (JS.trimEnd rest) as [| c' kept].
  - rewrite Hc. eexists. reflexivity.
  - eexists. reflexivity.
Qed.

Lemma trimEnd_idempotent (s : string) : JS.trimEnd (JS.trimEnd s) = JS.trimEnd s.
Proof.
  induction s as [| c rest IH]; simpl; [reflexivity |].
  destruct (JS.trimEnd rest) as [| c' kept] eqn:Hrest.
  - destruct (JS.isWhiteSpace c) eqn:Hc; simpl; [reflexivity |].
    rewrite Hc. reflexivity.
  - simpl in *. rewrite IH. reflexivity.
Qed.

Lemma trim_idempotent (s : string) : JS.trim (JS.trim s) = JS.trim s.
Proof.
  unfold JS.trim.
  destruct (trimStart_cases s) as [[-> _] | (c & rest & -> & Hc)]; [reflexivity |].
  destruct (trimEnd_head c rest Hc) as [kept Hkept].
  rewrite Hkept. simpl JS.trimStart. rewrite Hc.
  rewrite <- Hkept. apply trimEnd_idempotent.
Qed.

Lemma trim_empty_blank (s : string) : JS.trim s = "" <-> JS.blank s = true.
Proof.
  split; [| apply trim_blank].
  unfold JS.trim.
  destruct (trimStart_cases s) as [[_ H] | (c & rest & -> & Hc)]; [auto |].
  destruct (trimEnd_head c rest Hc) as [kept ->]. discriminate.
Qed.

Lemma trim_clean (s : string) : JS.trim s <> "" -> clean (JS.trim s).
Proof. intros H. split; [exact H | apply trim_idempotent]. Qed.

Lemma starter_clean (question : string) :
  In question STARTER_QUESTIONS -> clean question.
Proof.
  simpl. intros [<- | [<- | [<- | [<- | []]]]]; split; (discriminate || reflexivity).
Qed.

(** ** Identifiers as text *)

Lemma to_int_proper (n : Z) : Z.to_int n <> Decimal.Pos Decimal.Nil /\ Z.to_int n <> Decimal.Neg Decimal.Nil.
Proof.
  destruct n as [| p | p]; simpl; split; try discriminate;
    intros H; injection H as H; exact (DecimalPos.Unsigned.to_uint_nonnil p H).
Qed.

Lemma toString_parses (n : Z) :
  NilZero.int_of_string (JS.toString n) = Some (Z.to_int n).
Proof.
  destruct (to_int_proper n) as [H1 H2]. apply NilZero.isi; assumption.
Qed.

Lemma toString_injective : Injective JS.toString.
Proof.
  intros n n' H. apply DecimalZ.to_int_inj.
  pose proof (toString_parses n) as Hn. rewrite H, toString_parses in Hn.
  congruence.
Qed.

Lemma toString_not_welcome (n : Z) : JS.toString n <> "welcome".
Proof.
  intros H. pose proof (toString_parses n) as Hn. rewrite H in Hn. discriminate.
Qed.

(** ** One step of a session, case by case *)

Lemma return_noop (messageText : option string) (now date : Z) (s : HomeState) effs :
  handleSend messageText now date s = Return effs -> effs = [].
Proof.
  unfold handleSend. destruct (negb _ || loading s); [| discriminate].
  intros H. injection H as <-. reflexivity.
Qed.

Lemma await_shape (messageText : option string) (now date : Z) (s : HomeState)
      effs message agent_id resume :
  handleSend messageText now date s = Await effs message agent_id resume ->
  effs = [ setInput ""; setError None;
           setMessages_append (mkMessage (JS.toString now) user message date None None None None);
           setLoading true ].
Proof.
  unfold handleSend. destruct (negb _ || loading s); [discriminate |].
  intros H. injection H as <- <- _ _. reflexivity.
Qed.

Lemma or_default_nonempty (a : option string) (d : string) :
  d <> "" -> JS.or_default a d <> "".
Proof.
  intros Hd. unfold JS.or_default. destruct a as [s |]; [| exact Hd].
  destruct (JS.truthy s) eqn:Hs; [| exact Hd]. apply truthy_nonempty. exact Hs.
Qed.

(** A success leaves last-error as it is; a failure sets it to a text that
    is not empty. *)
Lemma resume_error (settled : Settled) (now date : Z) (s : HomeState) :
  match success_payload settled with
  | Some _ => error (apply_effects (handleSend_resume settled now date) s) = error s
  | None => exists e, error (apply_effects (handleSend_resume settled now date) s) = Some e
                      /\ e <> ""
  end.
Proof.
  destruct (success_payload settled) as [payload |] eqn:Hs.
  - rewrite (resume_success settled payload now date Hs). reflexivity.
  - destruct (reports_error settled) as [[result response] |] eqn:Hr.
    + rewrite (resume_reported settled result response now date Hr).
      eexists. split; [reflexivity |]. apply or_default_nonempty. discriminate.
    + rewrite (resume_thrown settled now date Hs Hr).
      eexists. split; [reflexivity | discriminate].
Qed.

Lemma step_cases (w w' : Session) (ev : Event) :
  coherent w ->
  step w ev = Some w' ->
  (exists value,
      ev = Typed value
      /\ w' = mkSession (mkState (messages (ui w)) value (loading (ui w)) (error (ui w)))
                        (pending w))
  \/ (exists messageText now date,
         ev = Sent messageText now date
         /\ handleSend messageText now date (ui w) = Return []
         /\ w' = w)
  \/ (exists messageText now date,
         ev = Sent messageText now date
         /\ loading (ui w) = false
         /\ pending w = []
         /\ JS.truthy (textToSend messageText (ui w)) = true
         /\ w' = mkSession
                   (mkState
                      (messages (ui w)
                         ++ [mkMessage (JS.toString now) user (textToSend messageText (ui w))
                                       date None None None None])
                      "" true None)
                   [mkPending (textToSend messageText (ui w)) AGENT_ID handleSend_resume])
  \/ (exists settled now date m,
         ev = Settles settled now date
         /\ loading (ui w) = true
         /\ role m = agent
         /\ id m = JS.toString (now + 1)
         /\ w' = mkSession
                   (mkState (messages (ui w) ++ [m]) (input (ui w)) false
                            (error (apply_effects (handleSend_resume settled now date) (ui w))))
                   []).
Proof.
  intros Hc. destruct ev as [value | messageText now date | settled now date]; simpl.
  - intros H. injection H as <-. left. eauto.
  - destruct (handleSend messageText now date (ui w))
      as [effs | effs message agent_id resume] eqn:Hs; intros H; injection H as <-.
    + right. left. pose proof (return_noop _ _ _ _ _ Hs) as ->.
      exists messageText, now, date. destruct w. auto.
    + right. right. left.
      pose proof (await_shape _ _ _ _ _ _ _ _ Hs) as ->.
      apply await_inversion in Hs as (Hidle & _ & -> & Htruthy & -> & ->).
      destruct Hc as [[_ Hp] | [Hl _]]; [| congruence].
      exists messageText, now, date. rewrite Hp. auto 10.
  - destruct Hc as [[_ Hp] | [Hl (p & Hp & Hk)]]; rewrite Hp; [discriminate |].
    intros H. injection H as <-. right. right. right. rewrite Hk.
    destruct (resume_shape settled now date) as (report & m & Heq & Hrole & Hid & Hrep).
    exists settled, now, date, m.
    split; [reflexivity |]. split; [exact Hl |]. split; [exact Hrole |].
    split; [exact Hid |]. rewrite Heq.
    destruct Hrep as [-> | [e ->]]; reflexivity.
Qed.

Lemma run_invariant (P : Session -> Prop) :
  (forall w ev w', coherent w -> P w -> step w ev = Some w' -> P w') ->
  forall evs w w', coherent w -> P w -> run evs w = Some w' -> P w'.
Proof.
  intros Hstep. induction evs as [| ev rest IH]; simpl; intros w w' Hc HP.
  - intros H. injection H as <-. exact HP.
  - destruct (step w ev) as [w1 |] eqn:Hs; [| discriminate].
    apply IH; [exact (step_coherent w w1 ev Hc Hs) | exact (Hstep w ev w1 Hc HP Hs)].
Qed.

Ltac step_cases_in H Hc :=
  apply (step_cases _ _ _ Hc) in H as
      [ (value & -> & ->)
      | [ (messageText & now & date & -> & Hnoop & ->)
        | [ (messageText & now & date & -> & Hidle & Hpend & Htruthy & ->)
          | (settled & now & date & m & -> & Hbusy & Hrole & Hid & ->) ] ] ].

(** ** The message list over a session *)

Lemma run_grows (evs : list Event) (w w' : Session) :
  coherent w -> run evs w = Some w' ->
  exists added, messages (ui w') = messages (ui w) ++ added.
Proof.
  intros Hc Hrun.
  apply (run_invariant
           (fun w1 => exists added, messages (ui w1) = messages (ui w) ++ added))
    with (evs := evs) (w := w); try assumption.
  - clear. intros w1 ev w2 Hc (added & Hadded) Hstep.
    step_cases_in Hstep Hc; simpl; eauto.
    + exists (added ++ [mkMessage (JS.toString now) user (textToSend messageText (ui w1))
                                  date None None None None]).
      rewrite Hadded, app_assoc. reflexivity.
    + exists (added ++ [m]). rewrite Hadded, app_assoc. reflexivity.
  - exists []. rewrite app_nil_r. reflexivity.
Qed.

(** X3. The message list is append-only. From any session the page has
    reached, whatever happens next keeps the messages already listed, in
    place and unchanged, and only adds messages after them; the list always
    starts with the welcome message. *)
Theorem messages_only_grow :
  forall (evs1 evs2 : list Event) (date0 : Z) (w1 w2 : Session),
    run evs1 (session_start date0) = Some w1 ->
    run evs2 w1 = Some w2 ->
    (exists added, messages (ui w2) = messages (ui w1) ++ added)
    /\ (exists rest, messages (ui w2) = welcomeMessage date0 :: rest).
Proof.
  intros evs1 evs2 date0 w1 w2 H1 H2.
  pose proof (reachable_coherent evs1 date0 w1 H1) as Hc1.
  destruct (run_grows evs2 w1 w2 Hc1 H2) as (added2 & Hadded2).
  destruct (run_grows evs1 _ w1 (start_coherent date0) H1) as (added1 & Hadded1).
  split; [eauto |].
  exists (added1 ++ added2). rewrite Hadded2, Hadded1. reflexivity.
Qed.

Lemma messages_only_grow_witness :
  exists (w1 w2 : Session) (added : list Message),
    run [Sent (Some "Tell me about your services") 1000 1000] (session_start 0) = Some w1
    /\ run [Settles rate_limited_reply 2000 2000] w1 = Some w2
    /\ messages (ui w2) = messages (ui w1) ++ added.
Proof.
  eexists. eexists.
  destruct (messages_only_grow
              [Sent (Some "Tell me about your services") 1000 1000]
              [Settles rate_limited_reply 2000 2000] 0 _ _ eq_refl eq_refl)
    as [(added & Hadded) _].
  exists added. split; [reflexivity |]. split; [reflexivity | exact Hadded].
Defined.

Lemma concat_repeat_snoc (A : Type) (x : list A) (n : nat) :
  concat (repeat x (S n)) = concat (repeat x n) ++ x.
Proof.
  induction n as [| n IH]; simpl in *.
  - rewrite app_nil_r. reflexivity.
  - rewrite IH at 1. rewrite app_assoc. reflexivity.
Qed.

Lemma dialogue_length (turns : nat) (busy : bool) :
  length (dialogue turns busy) = (1 + 2 * turns + (if busy then 1 else 0))%nat.
Proof.
  unfold dialogue. simpl. rewrite length_app. f_equal.
  assert (H : length (concat (repeat [user; agent] turns)) = (2 * turns)%nat).
  { induction turns as [| n IH]; simpl in *; [reflexivity | rewrite IH; lia]. }
  rewrite H. destruct busy; simpl; lia.
Qed.

Lemma reachable_dialogue (evs : list Event) (date0 : Z) (w : Session) :
  run evs (session_start date0) = Some w ->
  exists turns, map role (messages (ui w)) = dialogue turns (loading (ui w)).
Proof.
  apply (run_invariant
           (fun w1 => exists turns, map role (messages (ui w1)) = dialogue turns (loading (ui w1)))).
  - clear. intros w1 ev w2 Hc (turns & Hturns) Hstep.
    step_cases_in Hstep Hc; simpl; eauto.
    + exists turns. rewrite map_app, Hturns, Hidle. unfold dialogue. simpl.
      rewrite app_nil_r. reflexivity.
    + exists (S turns). rewrite map_app. simpl map. rewrite Hturns, Hbusy, Hrole.
      unfold dialogue.
      rewrite concat_repeat_snoc. simpl. rewrite app_nil_r, <- app_assoc. reflexivity.
  - apply start_coherent.
  - exists 0%nat. reflexivity.
Qed.

(** X4. The conversation alternates. In every session the roles of the
    listed messages are: the welcome message of the agent, then pairs of a
    user message and its reply, then one more user message exactly when a
    call is in flight. So the list has an odd length when idle and an even
    length when busy. *)
Theorem roles_alternate :
  forall (evs : list Event) (date0 : Z) (w : Session),
    run evs (session_start date0) = Some w ->
    exists turns : nat,
      map role (messages (ui w)) = dialogue turns (loading (ui w))
      /\ length (messages (ui w))
         = (1 + 2 * turns + (if loading (ui w) then 1 else 0))%nat.
Proof.
  intros evs date0 w Hrun.
  destruct (reachable_dialogue evs date0 w Hrun) as (turns & Hturns).
  exists turns. split; [exact Hturns |].
  rewrite <- (length_map role), Hturns. apply dialogue_length.
Qed.

Lemma roles_alternate_witness :
  exists (w : Session) (turns : nat),
    run [Typed "hello"; Sent None 1000 1000; Settles order_tracking_reply 2000 2000;
         Sent (Some "Q1") 3000 3000] (session_start 0) = Some w
    /\ map role (messages (ui w)) = dialogue turns (loading (ui w))
    /\ length (messages (ui w)) = 4%nat.
Proof.
  eexists.
  destruct (roles_alternate
              [Typed "hello"; Sent None 1000 1000; Settles order_tracking_reply 2000 2000;
               Sent (Some "Q1") 3000 3000] 0 _ eq_refl) as (turns & Hturns & _).
  exists turns. split; [reflexivity |]. split; [exact Hturns | reflexivity].
Defined.

(** X5. The call in flight answers the last message. In every session,
    while the busy flag is set there is one pending call; it carries the
    content of the last listed message, which is a user message and is not
    empty, and it goes to [AGENT_ID]. *)
Theorem call_in_flight_matches_last_message :
  forall (evs : list Event) (date0 : Z) (w : Session),
    run evs (session_start date0) = Some w ->
    loading (ui w) = true ->
    exists (p : PendingCall) (front : list Message) (u : Message),
      pending w = [p]
      /\ messages (ui w) = front ++ [u]
      /\ role u = user
      /\ content u = call_message p
      /\ call_message p <> ""
      /\ call_agent_id p = AGENT_ID.
Proof.
  intros evs date0 w Hrun.
  change (call_matches_last_message w). revert Hrun.
  apply (run_invariant call_matches_last_message).
  - clear. intros w1 ev w2 Hc HP Hstep.
    step_cases_in Hstep Hc; unfold call_matches_last_message in *; simpl;
      try assumption; try discriminate.
    intros _. eexists _, (messages (ui w1)), _.
    repeat split. simpl. apply truthy_nonempty. exact Htruthy.
  - apply start_coherent.
  - intros H. discriminate.
Qed.

Lemma call_in_flight_matches_last_message_witness :
  exists (w : Session) (p : PendingCall),
    run [Typed "  where is my parcel? "; Sent None 1000 1000] (session_start 0) = Some w
    /\ loading (ui w) = true
    /\ pending w = [p]
    /\ call_message p = "where is my parcel?".
Proof.
  eexists.
  destruct (call_in_flight_matches_last_message
              [Typed "  where is my parcel? "; Sent None 1000 1000] 0 _ eq_refl eq_refl)
    as (p & front & u & Hp & _).
  exists p. split; [reflexivity |]. split; [reflexivity |]. split; [exact Hp |].
  simpl in Hp. injection Hp as <-. reflexivity.
Defined.

(** ** The starter row and the error banner *)

Lemma starters_hidden_iff (evs : list Event) (date0 : Z) (w : Session) :
  run evs (session_start date0) = Some w ->
  starter_buttons (ui w) = [] <-> (2 <= length (messages (ui w)))%nat.
Proof.
  intros Hrun.
  destruct (reachable_dialogue evs date0 w Hrun) as (turns & Hturns).
  pose proof (dialogue_length turns (loading (ui w))) as Hlen.
  rewrite <- Hturns, length_map in Hlen.
  unfold starter_buttons.
  destruct (Nat.eqb_spec (length (messages (ui w))) 1) as [H1 | H1]; simpl.
  - destruct (loading (ui w)); simpl; split; intros H; try discriminate; lia.
  - split; [lia | reflexivity].
Qed.

(** X6. The starter questions are offered until the first message is sent,
    and never again. In every session the row is hidden exactly when the
    list holds more than the welcome message, and once hidden it stays
    hidden whatever happens next (a failed call does not bring it back). *)
Theorem starter_row_gone_for_good :
  forall (evs1 evs2 : list Event) (date0 : Z) (w1 w2 : Session),
    run evs1 (session_start date0) = Some w1 ->
    run evs2 w1 = Some w2 ->
    (starters (Home (ui w1)) = [] <-> (2 <= length (messages (ui w1)))%nat)
    /\ (starters (Home (ui w1)) = [] -> starters (Home (ui w2)) = []).
Proof.
  intros evs1 evs2 date0 w1 w2 H1 H2. simpl.
  pose proof (starters_hidden_iff evs1 date0 w1 H1) as Hiff1.
  split; [exact Hiff1 |].
  intros Hhidden. apply Hiff1 in Hhidden.
  assert (H12 : run (evs1 ++ evs2) (session_start date0) = Some w2).
  { revert H1. generalize (session_start date0). clear -H2.
    induction evs1 as [| ev rest IH]; simpl; intros w H.
    - injection H as ->. exact H2.
    - destruct (step w ev); [apply IH; exact H | discriminate]. }
  apply (starters_hidden_iff _ date0 w2 H12).
  destruct (run_grows evs2 w1 w2 (reachable_coherent evs1 date0 w1 H1) H2) as (added & ->).
  rewrite length_app. lia.
Qed.

Lemma starter_row_gone_for_good_witness :
  exists w1 w2 : Session,
    run [Sent (Some "How do I reset my password?") 1000 1000] (session_start 0) = Some w1
    /\ run [Settles (Rejected "offline") 2000 2000] w1 = Some w2
    /\ length (starters (Home (ui (session_start 0)))) = 4%nat
    /\ starters (Home (ui w1)) = []
    /\ starters (Home (ui w2)) = [].
Proof.
  eexists. eexists.
  split; [reflexivity |]. split; [reflexivity |]. split; [reflexivity |].
  split; [reflexivity |].
  apply (starter_row_gone_for_good
           [Sent (Some "How do I reset my password?") 1000 1000]
           [Settles (Rejected "offline") 2000 2000] 0 _ _ eq_refl eq_refl).
  reflexivity.
Defined.

Lemma busy_without_error (evs : list Event) (date0 : Z) (w : Session) :
  run evs (session_start date0) = Some w ->
  loading (ui w) = true -> error (ui w) = None.
Proof.
  apply (run_invariant (fun w1 => loading (ui w1) = true -> error (ui w1) = None)).
  - clear. intros w1 ev w2 Hc HP Hstep.
    step_cases_in Hstep Hc; simpl; try assumption; try reflexivity; discriminate.
  - apply start_coherent.
  - discriminate.
Qed.

(** X7. The error banner tells how the last call ended. In every session
    the banner is hidden while a call is in flight (sending clears it); when
    the call settles, the banner stays hidden after a success and shows a
    text that is not empty after any failure. *)
Theorem banner_reflects_last_reply :
  forall (evs : list Event) (date0 : Z) (w : Session),
    run evs (session_start date0) = Some w ->
    (loading (ui w) = true -> error_banner (Home (ui w)) = None)
    /\ (forall (settled : Settled) (now date : Z) (w' : Session),
           step w (Settles settled now date) = Some w' ->
           match success_payload settled with
           | Some _ => error_banner (Home (ui w')) = None
           | None => exists e, error_banner (Home (ui w')) = Some e /\ e <> ""
           end).
Proof.
  intros evs date0 w Hrun.
  pose proof (busy_without_error evs date0 w Hrun) as Hquiet.
  pose proof (reachable_coherent evs date0 w Hrun) as Hc.
  split.
  - intros Hbusy. simpl. rewrite (Hquiet Hbusy). reflexivity.
  - intros settled now date w' Hstep.
    apply (step_cases _ _ _ Hc) in Hstep as
        [ (value & He & _)
        | [ (mt & n & d & He & _)
          | [ (mt & n & d & He & _)
            | (settled' & now' & date' & m & He & Hbusy & _ & _ & ->) ] ] ];
      try discriminate.
    injection He as <- <- <-. simpl.
    pose proof (resume_error settled now date (ui w)) as Herr.
    destruct (success_payload settled).
    + rewrite Herr, (Hquiet Hbusy). reflexivity.
    + destruct Herr as (e & -> & Hne). exists e.
      apply truthy_nonempty in Hne as Ht. rewrite Ht. auto.
Qed.

Lemma banner_reflects_last_reply_witness :
  exists w w' : Session,
    run [Sent (Some "How can I track my order?") 1000 1000] (session_start 0) = Some w
    /\ step w (Settles rate_limited_reply 2000 2000) = Some w'
    /\ error_banner (Home (ui w)) = None
    /\ error_banner (Home (ui w')) = Some "rate limited".
Proof.
  eexists. eexists.
  split; [reflexivity |]. split; [reflexivity |].
  split; [| reflexivity].
  apply (banner_reflects_last_reply
           [Sent (Some "How can I track my order?") 1000 1000] 0 _ eq_refl).
  reflexivity.
Defined.

(** ** Identifiers under a clock that moves on *)

Lemma sorted_snoc (zs : list Z) (last z : Z) :
  StronglySorted Z.lt zs ->
  Forall (fun y => y <= last) zs ->
  last < z ->
  StronglySorted Z.lt (zs ++ [z]) /\ Forall (fun y => y <= z) (zs ++ [z]).
Proof.
  intros Hsorted Hbound Hlt.
  induction Hsorted as [| y ys Hys IH Hall]; simpl.
  - split; repeat constructor. lia.
  - inversion Hbound as [| ? ? Hy Hrest]; subst.
    destruct (IH Hrest) as [IHs IHb].
    split.
    + constructor; [exact IHs |].
      apply Forall_app. split; [exact Hall | constructor; [lia | constructor]].
    + constructor; [lia | exact IHb].
Qed.

Lemma sorted_nodup (zs : list Z) : StronglySorted Z.lt zs -> NoDup zs.
Proof.
  induction 1 as [| y ys Hys IH Hall]; constructor; [| exact IH].
  intros Hin. rewrite Forall_forall in Hall. specialize (Hall y Hin). lia.
Qed.

Lemma ordered_ids_weaken (last last' : Z) (s : HomeState) :
  last <= last' -> ordered_ids last s -> ordered_ids last' s.
Proof.
  intros Hle (zs & Hids & Hsorted & Hbound).
  exists zs. repeat split; try assumption.
  eapply Forall_impl; [| exact Hbound]. simpl. intros; lia.
Qed.

Lemma ordered_ids_snoc (last z : Z) (s : HomeState) (m : Message) (i : string) (b : bool)
      (e : option string) :
  ordered_ids last s ->
  last < z ->
  id m = JS.toString z ->
  ordered_ids z (mkState (messages s ++ [m]) i b e).
Proof.
  intros (zs & Hids & Hsorted & Hbound) Hlt Hid.
  destruct (sorted_snoc zs last z Hsorted Hbound Hlt) as [Hs Hb].
  exists (zs ++ [z]). simpl.
  rewrite !map_app, Hids. simpl. rewrite Hid. auto.
Qed.

Lemma run_ordered_ids (evs : list Event) :
  forall (last : Z) (w w' : Session),
    coherent w ->
    ordered_ids last (ui w) ->
    spaced last evs = true ->
    run evs w = Some w' ->
    exists last', ordered_ids last' (ui w').
Proof.
  induction evs as [| ev rest IH]; simpl; intros last w w' Hc Hids Hspaced Hrun.
  - injection Hrun as <-. eauto.
  - destruct (step w ev) as [w1 |] eqn:Hstep; [| discriminate].
    pose proof (step_coherent w w1 ev Hc Hstep) as Hc1.
    step_cases_in Hstep Hc.
    + apply (IH last _ w' Hc1); assumption.
    + apply andb_prop in Hspaced as [Hlt Hrest]. apply Z.ltb_lt in Hlt.
      apply (IH now _ w' Hc1); try assumption.
      apply (ordered_ids_weaken last now); [lia | exact Hids].
    + apply andb_prop in Hspaced as [Hlt Hrest]. apply Z.ltb_lt in Hlt.
      apply (IH now _ w' Hc1); try assumption.
      apply (ordered_ids_snoc last now (ui w)); [exact Hids | exact Hlt | reflexivity].
    + apply andb_prop in Hspaced as [Hle Hrest]. apply Z.leb_le in Hle.
      apply (IH (now + 1) _ w' Hc1); try assumption.
      apply (ordered_ids_snoc last (now + 1) (ui w)); [exact Hids | lia | exact Hid].
Qed.

(** X8. Identifiers are unique when the clock moves on. If every send reads
    a [Date.now()] above all identifiers given out so far, and every reply
    reads a value not below the last one, then the identifiers of the list
    (the React keys of the rendered messages) are pairwise distinct: they
    are ["welcome"] followed by the decimal text of strictly increasing
    numbers, in display order. *)
Theorem identifiers_unique_when_clock_spaced :
  forall (evs : list Event) (last0 date0 : Z) (w : Session),
    spaced last0 evs = true ->
    run evs (session_start date0) = Some w ->
    NoDup (message_keys (Home (ui w)))
    /\ exists zs : list Z,
         map id (messages (ui w)) = "welcome" :: map JS.toString zs
         /\ StronglySorted Z.lt zs.
Proof.
  intros evs last0 date0 w Hspaced Hrun.
  assert (Hstart : ordered_ids last0 (ui (session_start date0))).
  { exists []. repeat split; constructor. }
  destruct (run_ordered_ids evs last0 _ w (start_coherent date0) Hstart Hspaced Hrun)
    as (last & zs & Hids & Hsorted & _).
  split; [| eauto].
  simpl. rewrite Hids. constructor.
  - intros Hin. apply in_map_iff in Hin as (z & Hz & _).
    exact (toString_not_welcome z Hz).
  - apply Injective_map_NoDup; [exact toString_injective | exact (sorted_nodup zs Hsorted)].
Qed.

Lemma identifiers_unique_when_clock_spaced_witness :
  exists w : Session,
    spaced 0 [Typed "a"; Sent None 1700000000000 1700000000000;
              Settles (Rejected "offline") 1700000000250 1700000000250;
              Typed "b"; Sent None 1700000000252 1700000000252] = true
    /\ run [Typed "a"; Sent None 1700000000000 1700000000000;
            Settles (Rejected "offline") 1700000000250 1700000000250;
            Typed "b"; Sent None 1700000000252 1700000000252] (session_start 0) = Some w
    /\ NoDup (message_keys (Home (ui w))).
Proof.
  eexists. split; [reflexivity |]. split; [reflexivity |].
  apply (identifiers_unique_when_clock_spaced
           [Typed "a"; Sent None 1700000000000 1700000000000;
            Settles (Rejected "offline") 1700000000250 1700000000250;
            Typed "b"; Sent None 1700000000252 1700000000252] 0 0 _ eq_refl eq_refl).
Defined.

(** ** The page's controls and the handlers behind them *)

Lemma disabled_send_returns (s : HomeState) (now date : Z) :
  send_disabled (Home s) = true -> handleSend None now date s = Return [].
Proof.
  simpl. unfold handleSend, textToSend. simpl JS.or_default.
  intros H. rewrite H. reflexivity.
Qed.

(** X1. The send button is enabled exactly when [handleSend()] would send.
    It is disabled when the input is blank or a call is in flight, and then
    [handleSend()] returns at once; when it is enabled, [handleSend()] issues
    the call with the trimmed input, which is not empty and has no white
    space left around it. *)
Theorem send_button_guard_agrees :
  forall (s : HomeState) (now date : Z),
    send_disabled (Home s) = JS.blank (input s) || loading s
    /\ (send_disabled (Home s) = true -> handleSend None now date s = Return [])
    /\ (send_disabled (Home s) = false ->
        outbound (handleSend None now date s) = Some (JS.trim (input s))
        /\ clean (JS.trim (input s))).
Proof.
  intros s now date. simpl.
  assert (Hblank : negb (JS.truthy (JS.trim (input s))) = JS.blank (input s)).
  { destruct (JS.blank (input s)) eqn:Hb.
    - rewrite (trim_blank _ Hb). reflexivity.
    - destruct (JS.truthy (JS.trim (input s))) eqn:Ht; [reflexivity |].
      assert (He : JS.trim (input s) = "").
      { destruct (String.eqb_spec (JS.trim (input s)) "") as [He | Hne]; [exact He |].
        apply truthy_nonempty in Hne. congruence. }
      apply trim_empty_blank in He. congruence. }
  split; [rewrite Hblank; reflexivity |].
  unfold handleSend, textToSend. simpl JS.or_default.
  split; intros H; rewrite H; [reflexivity |].
  split; [reflexivity |].
  apply trim_clean. apply truthy_nonempty.
  apply orb_false_elim in H as [H _]. apply negb_false_iff in H. exact H.
Qed.

Lemma step_sent (w : Session) (messageText : option string) (now date : Z) :
  step w (Sent messageText now date) = Some (enter (handleSend messageText now date (ui w)) w).
Proof. simpl. destruct (handleSend messageText now date (ui w)); reflexivity. Qed.

Lemma enter_return (w : Session) : enter (Return []) w = w.
Proof. destruct w. reflexivity. Qed.

(** X2. Pressing Enter in the input is clicking the send button. With the
    input enabled, Enter without Shift calls [preventDefault] and does what
    a click on the enabled send button does; when the button is disabled
    (blank input) it changes nothing. Shift+Enter and every other key call
    no handler and change nothing. *)
Theorem enter_key_is_send_click :
  forall (w : Session) (key : string) (shiftKey : bool) (now date : Z),
    input_disabled (Home (ui w)) = false ->
    (key = "Enter" /\ shiftKey = false ->
     fst (handleKeyPress key shiftKey now date (ui w)) = true
     /\ (send_disabled (Home (ui w)) = false ->
         ui_step w (KeyPress key shiftKey now date) = ui_step w (ClickSend now date))
     /\ (send_disabled (Home (ui w)) = true ->
         ui_step w (KeyPress key shiftKey now date) = Some w))
    /\ (key <> "Enter" \/ shiftKey = true ->
        fst (handleKeyPress key shiftKey now date (ui w)) = false
        /\ ui_step w (KeyPress key shiftKey now date) = Some w).
Proof.
  intros w key shiftKey now date Henabled.
  unfold ui_step. cbv zeta. rewrite Henabled. split.
  - intros [-> ->]. simpl fst. split; [reflexivity |]. split; intros Hsend.
    + rewrite Hsend. reflexivity.
    + simpl snd.
      rewrite (disabled_send_returns (ui w) now date Hsend), enter_return. reflexivity.
  - intros Hother. unfold handleKeyPress.
    assert (Hno : String.eqb key "Enter" && negb shiftKey = false).
    { destruct Hother as [Hkey | ->]; [| apply andb_false_r].
      apply String.eqb_neq in Hkey. rewrite Hkey. reflexivity. }
    rewrite Hno. cbn [fst snd]. rewrite enter_return. auto.
Qed.

Lemma enter_key_is_send_click_witness :
  exists w : Session,
    ui_run [Change "hello"] (session_start 0) = Some w
    /\ input_disabled (Home (ui w)) = false
    /\ send_disabled (Home (ui w)) = false
    /\ ui_step w (KeyPress "Enter" false 1000 1000) = ui_step w (ClickSend 1000 1000)
    /\ ui_step w (KeyPress "Enter" true 1000 1000) = Some w.
Proof.
  eexists. split; [reflexivity |]. split; [reflexivity |]. split; [reflexivity |].
  match goal with
  | |- ui_step ?w _ = _ /\ _ =>
      pose proof (enter_key_is_send_click w "Enter" false 1000 1000 eq_refl) as [Henter _];
      pose proof (enter_key_is_send_click w "Enter" true 1000 1000 eq_refl) as [_ Hshift]
  end.
  split.
  - apply Henter; [split; reflexivity | reflexivity].
  - apply Hshift. right. reflexivity.
Defined.

Lemma starter_chip (s : HomeState) (index : nat) (chip : Chip) :
  nth_error (starters (Home s)) index = Some chip ->
  length (messages s) = 1%nat
  /\ loading s = false
  /\ exists question,
       nth_error STARTER_QUESTIONS index = Some question
       /\ chip = {| label := question; onClick := Some (onQuickReply question) |}.
Proof.
  cbn [starters Home]. unfold starter_buttons.
  destruct (Nat.eqb_spec (length (messages s)) 1) as [Hlen | _]; cbn [andb];
    [| destruct index; discriminate].
  destruct (loading s); cbn [negb]; [destruct index; discriminate |].
  rewrite nth_error_map.
  destruct (nth_error STARTER_QUESTIONS index) as [question |]; cbn [option_map];
    [| discriminate].
  intros H. injection H as <-. eauto.
Qed.

(** X12. A click on a starter question sends that question and drops the
    draft. While the starter row is shown, clicking the button at a position
    appends a user message with the question at that position, issues the
    call with it, and empties the input whatever had been typed there; when
    the row is hidden there is nothing to click. *)
Theorem starter_click_sends_question_and_drops_draft :
  forall (w : Session) (index : nat) (now date : Z),
    (forall question,
        length (messages (ui w)) = 1%nat ->
        loading (ui w) = false ->
        nth_error STARTER_QUESTIONS index = Some question ->
        ui_step w (ClickStarter index now date)
        = Some (mkSession
                  (mkState
                     (messages (ui w)
                        ++ [mkMessage (JS.toString now) user question date None None None None])
                     "" true None)
                  (pending w ++ [mkPending question AGENT_ID handleSend_resume])))
    /\ (length (messages (ui w)) <> 1%nat \/ loading (ui w) = true ->
        ui_step w (ClickStarter index now date) = None).
Proof.
  intros w index now date. split.
  - intros question Hlen Hidle Hnth.
    unfold ui_step. cbv zeta. cbn [starters Home]. unfold starter_buttons.
    rewrite Hlen, Hidle. cbn [Nat.eqb andb negb]. rewrite nth_error_map, Hnth.
    cbn [option_map onClick fire].
    assert (Ht : JS.truthy question = true).
    { apply truthy_nonempty. apply starter_clean. eapply nth_error_In. exact Hnth. }
    unfold handleQuickReply, handleSend, textToSend. simpl JS.or_default.
    rewrite Ht, Hidle. cbn iota. rewrite Ht. reflexivity.
  - intros Hhidden. unfold ui_step. cbv zeta.
    destruct (nth_error (starters (Home (ui w))) index) as [chip |] eqn:Hchip;
      [| reflexivity].
    apply starter_chip in Hchip as (Hlen & Hidle & _).
    destruct Hhidden; congruence.
Qed.

Lemma starter_click_sends_question_and_drops_draft_witness :
  exists w w' : Session,
    ui_run [Change "my draft"] (session_start 0) = Some w
    /\ ui_step w (ClickStarter 1 1000 1000) = Some w'
    /\ input (ui w') = ""
    /\ map content (messages (ui w')) =
         [ "Hello! I'm your customer support assistant. How can I help you today?";
           "What are your business hours?" ]
    /\ map call_message (pending w') = [ "What are your business hours?" ].
Proof.
  eexists. eexists. split; [reflexivity |].
  match goal with
  | |- ui_step ?w _ = _ /\ _ =>
      pose proof (proj1 (starter_click_sends_question_and_drops_draft w 1 1000 1000)
                        "What are your business hours?" eq_refl eq_refl eq_refl) as Hclick
  end.
  split; [exact Hclick |]. repeat split.
Defined.

(** ** Sessions driven through the page *)

Lemma run_app (evs1 evs2 : list Event) (w w1 w2 : Session) :
  run evs1 w = Some w1 -> run evs2 w1 = Some w2 -> run (evs1 ++ evs2) w = Some w2.
Proof.
  revert w. induction evs1 as [| ev rest IH]; simpl; intros w H1 H2.
  - injection H1 as ->. exact H2.
  - destruct (step w ev); [exact (IH _ H1 H2) | discriminate].
Qed.

(** One event of the page is at most one call of a handler. *)
Lemma ui_step_refines (w w' : Session) (uev : UiEvent) :
  ui_step w uev = Some w' ->
  w' = w \/ exists ev, step w ev = Some w'.
Proof.
  destruct uev as [value | key shiftKey now date | now date | index now date
                   | settled now date]; unfold ui_step; cbv zeta.
  - destruct (input_disabled (Home (ui w))); [discriminate |].
    intros H. right. exists (Typed value). exact H.
  - destruct (input_disabled (Home (ui w))); [discriminate |].
    unfold handleKeyPress.
    destruct (String.eqb key "Enter" && negb shiftKey); cbn [snd]; intros H;
      injection H as <-.
    + right. exists (Sent None now date). apply step_sent.
    + left. apply enter_return.
  - destruct (send_disabled (Home (ui w))); [discriminate |].
    intros H. injection H as <-. right. exists (Sent None now date). apply step_sent.
  - destruct (nth_error (starters (Home (ui w))) index) as [chip |] eqn:Hchip;
      [| discriminate].
    apply starter_chip in Hchip as (_ & _ & question & _ & ->). cbn [onClick fire].
    intros H. injection H as <-. right. exists (Sent (Some question) now date).
    apply step_sent.
  - intros H. right. exists (Settles settled now date). exact H.
Qed.

(** X9. Whatever is done through the page is a sequence of handler calls.
    Every session reached through the page's controls (input, keys, send
    button, starter buttons, replies) is reached by at most as many calls of
    [setInput], [handleSend] and settlements; so it has at most one call in
    flight, and the busy flag is set exactly while there is one. *)
Theorem page_events_are_session_events :
  forall (uevs : list UiEvent) (w w' : Session),
    ui_run uevs w = Some w' ->
    (exists evs : list Event,
        run evs w = Some w' /\ (length evs <= length uevs)%nat)
    /\ (coherent w ->
        (length (pending w') <= 1)%nat
        /\ (loading (ui w') = true <-> pending w' <> [])).
Proof.
  intros uevs w w' Hrun.
  assert (Hevs : exists evs, run evs w = Some w' /\ (length evs <= length uevs)%nat).
  { revert w Hrun. induction uevs as [| uev rest IH]; simpl; intros w Hrun.
    - injection Hrun as <-. exists []. auto.
    - destruct (ui_step w uev) as [w1 |] eqn:Hstep; [| discriminate].
      destruct (IH w1 Hrun) as (evs & Hevs & Hlen).
      destruct (ui_step_refines w w1 uev Hstep) as [-> | (ev & Hev)].
      + exists evs. split; [exact Hevs | lia].
      + exists (ev :: evs). simpl. rewrite Hev. split; [exact Hevs | lia]. }
  split; [exact Hevs |].
  intros Hc. destruct Hevs as (evs & Hevs & _).
  destruct (run_coherent evs w w' Hc Hevs) as [[Hl Hp] | [Hl (p & Hp & _)]];
    rewrite Hl, Hp; simpl; split; try lia; split; congruence.
Qed.

Lemma page_events_are_session_events_witness :
  exists w : Session,
    ui_run [Change "hi"; KeyPress "a" false 1 1; KeyPress "Enter" false 1000 1000]
           (session_start 0) = Some w
    /\ run [Typed "hi"; Sent None 1000 1000] (session_start 0) = Some w
    /\ (length (pending w) <= 1)%nat.
Proof.
  eexists. split; [reflexivity |]. split; [reflexivity |].
  apply (page_events_are_session_events
           [Change "hi"; KeyPress "a" false 1 1; KeyPress "Enter" false 1000 1000]
           (session_start 0) _ eq_refl).
  apply start_coherent.
Defined.

Lemma sent_keeps_clean (w : Session) (messageText : option string) (now date : Z) :
  coherent w ->
  page_clean w ->
  (JS.truthy (textToSend messageText (ui w)) = true ->
   clean (textToSend messageText (ui w))) ->
  page_clean (enter (handleSend messageText now date (ui w)) w).
Proof.
  intros Hc (Hmsgs & Hcalls & Hinput) Htext.
  pose proof (step_sent w messageText now date) as Hstep.
  apply (step_cases _ _ _ Hc) in Hstep as
      [ (value & He & _)
      | [ (mt & n & d & _ & _ & ->)
        | [ (mt & n & d & He & Hidle & Hpend & Htruthy & ->)
          | (settled & n & d & m & He & _) ] ] ];
    try discriminate.
  - split; [| split]; assumption.
  - injection He as <- <- <-. specialize (Htext Htruthy).
    split; [| split]; simpl.
    + apply Forall_app. split; [exact Hmsgs |]. constructor; [| constructor].
      intros _. exact Htext.
    + constructor; [exact Htext | constructor].
    + reflexivity.
Qed.

Lemma ui_step_clean (w w' : Session) (uev : UiEvent) :
  coherent w -> page_clean w -> ui_step w uev = Some w' -> page_clean w'.
Proof.
  intros Hc Hclean.
  destruct uev as [value | key shiftKey now date | now date | index now date
                   | settled now date]; unfold ui_step; cbv zeta.
  - cbn [input_disabled Home]. destruct (loading (ui w)) eqn:Hl; [discriminate |].
    intros H. injection H as <-. destruct Hclean as (Hmsgs & Hcalls & _).
    split; [| split]; simpl; try assumption. congruence.
  - destruct (input_disabled (Home (ui w))); [discriminate |].
    unfold handleKeyPress.
    destruct (String.eqb key "Enter" && negb shiftKey); cbn [snd]; intros H;
      injection H as <-.
    + apply sent_keeps_clean; try assumption.
      intros Ht. apply trim_clean. apply truthy_nonempty. exact Ht.
    + destruct w. exact Hclean.
  - destruct (send_disabled (Home (ui w))); [discriminate |].
    intros H. injection H as <-.
    apply sent_keeps_clean; try assumption.
    intros Ht. apply trim_clean. apply truthy_nonempty. exact Ht.
  - destruct (nth_error (starters (Home (ui w))) index) as [chip |] eqn:Hchip;
      [| discriminate].
    apply starter_chip in Hchip as (_ & _ & question & Hnth & ->). cbn [onClick fire].
    intros H. injection H as <-.
    apply sent_keeps_clean; try assumption.
    pose proof (starter_clean question (nth_error_In _ _ Hnth)) as Hq.
    unfold textToSend. simpl JS.or_default.
    destruct Hq as [Hne Htrim]. apply truthy_nonempty in Hne as Ht. rewrite Ht.
    intros _. split; [apply truthy_nonempty; exact Ht | exact Htrim].
  - intros Hstep. destruct Hclean as (Hmsgs & Hcalls & _).
    apply (step_cases _ _ _ Hc) in Hstep as
        [ (value & He & _)
        | [ (mt & n & d & He & _)
          | [ (mt & n & d & He & _)
            | (settled' & n & d & m & _ & _ & Hrole & _ & ->) ] ] ];
      try discriminate.
    split; [| split]; simpl.
    + apply Forall_app. split; [exact Hmsgs |]. constructor; [| constructor].
      intros Hu. congruence.
    + constructor.
    + discriminate.
Qed.

(** X10. What the page sends is clean. In every session driven through the
    page's controls, the content of every user message and the text of the
    pending call are not empty and have no white space left around them,
    and the input is empty while a call is in flight. *)
Theorem page_sends_clean_text :
  forall (uevs : list UiEvent) (date0 : Z) (w : Session),
    ui_run uevs (session_start date0) = Some w ->
    Forall (fun m => role m = user -> content m <> "" /\ JS.trim (content m) = content m)
           (messages (ui w))
    /\ Forall (fun p => call_message p <> "" /\ JS.trim (call_message p) = call_message p)
              (pending w)
    /\ (loading (ui w) = true -> input (ui w) = "").
Proof.
  intros uevs date0 w Hrun.
  change (page_clean w).
  assert (Hstart : page_clean (session_start date0)).
  { split; [| split]; simpl; try discriminate; repeat constructor. discriminate. }
  pose proof (start_coherent date0) as Hc.
  revert Hrun Hstart Hc. generalize (session_start date0).
  induction uevs as [| uev rest IH]; simpl; intros w0 Hrun Hclean Hc.
  - injection Hrun as <-. exact Hclean.
  - destruct (ui_step w0 uev) as [w1 |] eqn:Hstep; [| discriminate].
    apply (IH w1 Hrun).
    + exact (ui_step_clean w0 w1 uev Hc Hclean Hstep).
    + destruct (ui_step_refines w0 w1 uev Hstep) as [-> | (ev & Hev)];
        [exact Hc | exact (step_coherent w0 w1 ev Hc Hev)].
Qed.

Lemma page_sends_clean_text_witness :
  exists w : Session,
    ui_run [Change "  where is my parcel?  "; ClickSend 1000 1000] (session_start 0) = Some w
    /\ map call_message (pending w) = ["where is my parcel?"]
    /\ (loading (ui w) = true -> input (ui w) = "").
Proof.
  eexists. split; [reflexivity |]. split; [reflexivity |].
  apply (page_sends_clean_text
           [Change "  where is my parcel?  "; ClickSend 1000 1000] 0 _ eq_refl).
Defined.

(** ** The confidence badge *)

(** X11. The confidence badge shows the nearest whole percentage. For an
    agent message whose confidence times 100 is the finite binary64 number
    [x = v * 2^e], the badge holds an integer [n]: [x] itself when [x] is
    whole, and otherwise the integer with [n - 1/2 <= x < n + 1/2], so that
    halves go up. *)
Theorem confidence_badge_is_nearest_percent :
  forall (m : Message) (c : float) (s : bool) (mant : positive) (e : Z),
    role m = agent ->
    confidence m = Some c ->
    Prim2SF (c * 100)%float = S754_finite s mant e ->
    exists n : Z,
      confidence_badge (ChatMessage m) = Some (JS.RInteger n)
      /\ let v := if s then Z.neg mant else Z.pos mant in
         (0 <= e -> n = v * 2 ^ e)
         /\ (e < 0 -> (2 * n - 1) * 2 ^ (- e) <= 2 * v < (2 * n + 1) * 2 ^ (- e)).
Proof.
  intros m c s mant e Hrole Hconf Hx.
  unfold ChatMessage. cbn [confidence_badge]. rewrite Hrole, Hconf.
  destruct (Z.leb_spec 0 e) as [Hle | Hlt].
  - exists ((if s then Z.neg mant else Z.pos mant) * 2 ^ e). split.
    + unfold JS.Math_round. rewrite Hx.
      destruct (Z.leb_spec 0 e); [reflexivity | lia].
    + cbv zeta. split; [reflexivity | lia].
  - destruct (Math_round_nearest _ s mant e Hx Hlt) as (n & Hn & Hbounds).
    exists n. rewrite Hn. split; [reflexivity |].
    cbv zeta in *. split; [lia | intros _; exact Hbounds].
Qed.

Lemma confidence_badge_is_nearest_percent_witness :
  exists n : Z,
    confidence_badge (ChatMessage (agent_message
                                     (mkAgentResult "..." [] 0.125%float ["Q1"] false)
                                     1000 1000))
    = Some (JS.RInteger n)
    /\ n = 13.
Proof.
  destruct (confidence_badge_is_nearest_percent
              (agent_message (mkAgentResult "..." [] 0.125%float ["Q1"] false) 1000 1000)
              0.125%float false 7036874417766400 (-49) eq_refl eq_refl eq_refl)
    as (n & Hn & _).
  exists n. split; [exact Hn |].
  vm_compute in Hn. injection Hn as <-. reflexivity.
Defined.
